(** * gci: the Kanban board's filter/group engine, windowing and state machine

  A shallow embedding of the board code of package [main] ([boardModel],
  its [Update], the two loaders, [filterAndGroupColumn],
  [reorderAndGroupIssues], [ensureCursorVisible], the scope strings) and of
  the fuzzy matcher of package [usercfg] ([FuzzyMatch], [FuzzyScore],
  [NormalizeSearchText]).

  Conventions of the embedding.
    - Go's [int] (cursor, offset, terminal rows, scores, [scopeFilter]) is
      [Z].  Every such number is a list length, a list index, a terminal
      dimension or a score bounded by a string length, so no operation gets
      near the 64-bit limits and no wrap-around is written out.
    - Go strings are [string] (byte strings).  The matcher is embedded for
      ASCII text: [strings.ToLower], [unicode.IsLetter] and [unicode.IsDigit]
      are their ASCII restrictions, and a byte is a rune.
    - Go maps used as sets ([present], [topSet], [backlogSet], [seen]) are
      [gset string]; the scope cache [allByScope] is a [gmap Z _]; a nil map
      reads like the empty map.
    - A [tea.Cmd] is a closure that performs network calls; it is embedded as
      data ([Cmd]) recording what the closure was given. *)

From stdpp Require Import gmap strings list fin_maps.
From Stdlib Require Import ZArith Lia Ascii.

Local Open Scope string_scope.
Local Open Scope list_scope.
Local Open Scope Z_scope.

(* ================================================================== *)
(** ** Strings: the pieces of Go's [strings] and [unicode] that are used *)
(* ================================================================== *)

Module GoStrings.

Definition byteIn (lo hi : nat) (c : ascii) : bool :=
  (Nat.leb lo (nat_of_ascii c)) && (Nat.leb (nat_of_ascii c) hi).

(** [unicode.ToLower] on an ASCII rune. *)
Definition lowerRune (c : ascii) : ascii :=
  if byteIn 65 90 c then ascii_of_nat (nat_of_ascii c + 32) else c.

(** [strings.ToLower]. *)
Fixpoint ToLower (s : string) : string :=
  match s with
  | EmptyString => EmptyString
  | String c r => String (lowerRune c) (ToLower r)
  end.

(** [strings.Contains s substr]. *)
Fixpoint Contains (s substr : string) : bool :=
  String.prefix substr s ||
  match s with
  | EmptyString => false
  | String _ r => Contains r substr
  end.

(** [unicode.IsLetter] and [unicode.IsDigit] on an ASCII rune. *)
Definition IsLetter (c : ascii) : bool := byteIn 65 90 c || byteIn 97 122 c.
Definition IsDigit (c : ascii) : bool := byteIn 48 57 c.

(** [len(s)] as a Go [int]. *)
Definition len (s : string) : Z := Z.of_nat (String.length s).

End GoStrings.

(* ================================================================== *)
(** ** Package usercfg: fuzzy matching *)
(* ================================================================== *)

Module usercfg.
Import GoStrings.

(** The two-index loop of [FuzzyMatch]: [pattern] is what is left of the
    pattern from [patternIdx] on, [target] what is left of the target
    from [targetIdx] on.  The result is [patternIdx == len(pattern)] at
    loop exit. *)
Fixpoint matchLoop (target pattern : string) {struct target} : bool :=
  match pattern with
  | EmptyString => true
  | String p ps =>
      match target with
      | EmptyString => false
      | String t ts =>
          if Ascii.eqb p t then matchLoop ts ps else matchLoop ts pattern
      end
  end.

Definition FuzzyMatch (pattern target : string) : bool :=
  if String.eqb pattern "" then true
  else if String.eqb target "" then false
  else matchLoop (ToLower target) (ToLower pattern).

(** Loop state of [FuzzyScore]: [score], [patternIdx],
    [consecutiveMatches]. *)
Record scoreState := ScoreState {
  score : Z;
  patternIdx : nat;
  consecutiveMatches : Z
}.

(** One iteration of [for i, char := range target]. *)
Definition scoreStep (pattern : string) (st : scoreState) (i : Z) (char : ascii)
  : scoreState :=
  let st1 :=
    match String.get (patternIdx st) pattern with
    | Some p =>
        if Ascii.eqb p char
        then ScoreState (score st + (10 + (consecutiveMatches st + 1)))
                        (S (patternIdx st))
                        (consecutiveMatches st + 1)
        else ScoreState (score st) (patternIdx st) 0
    | None => ScoreState (score st) (patternIdx st) 0
    end in
  if (len pattern * 3 <? i)%Z
  then ScoreState (score st1 - 1) (patternIdx st1) (consecutiveMatches st1)
  else st1.

Fixpoint scoreLoop (pattern : string) (target : string) (i : Z) (st : scoreState)
  : scoreState :=
  match target with
  | EmptyString => st
  | String char rest => scoreLoop pattern rest (i + 1) (scoreStep pattern st i char)
  end.

(** [FuzzyScore]: -1 when there is no match, otherwise 0..100 ([/] of Go
    truncates, hence [Z.quot]). *)
Definition FuzzyScore (pattern target : string) : Z :=
  if negb (FuzzyMatch pattern target) then -1
  else if String.eqb pattern "" then 100
  else
    let pattern := ToLower pattern in
    let target := ToLower target in
    let score := score (scoreLoop pattern target 0 (ScoreState 0 0 0)) in
    let score := if Contains target pattern then score + 20 else score in
    let maxScore := len pattern * 15 in
    let score := if (maxScore <? score)%Z then maxScore else score in
    Z.quot (score * 100) maxScore.

Definition keepRune (r : ascii) : bool :=
  IsLetter r || IsDigit r || Ascii.eqb r " " || Ascii.eqb r "-".

Fixpoint filterRunes (s : string) : string :=
  match s with
  | EmptyString => EmptyString
  | String r rest =>
      if keepRune r then String r (filterRunes rest) else filterRunes rest
  end.

(** [NormalizeSearchText]. *)
Definition NormalizeSearchText (text : string) : string :=
  filterRunes (ToLower text).

End usercfg.

(* ================================================================== *)
(** ** Tickets *)
(* ================================================================== *)

(** [JiraIssue], with the fields the board engine reads:
    [Key], [Fields.Summary], [Fields.IssueType.Subtask],
    [Fields.Parent.Key], [Fields.Status.Name]. *)
Record JiraIssue := mkIssue {
  Key : string;
  Summary : string;
  Subtask : bool;
  ParentKey : string;
  StatusName : string
}.

#[export] Instance JiraIssue_eq_dec : EqDecision JiraIssue.
Proof. solve_decision. Defined.

(* ================================================================== *)
(** ** Filter/Group engine: [reorderAndGroupIssues] *)
(* ================================================================== *)

Module Grouping.
Import GoStrings.

Definition isBacklog (it : JiraIssue) : bool :=
  Contains (ToLower (StatusName it)) "backlog".

(** The pair [(topSet, backlogSet)]. *)
Definition sets : Type := gset string * gset string.

(** Body of the first To Do loop: split by status. *)
Definition splitStep (acc : sets) (it : JiraIssue) : sets :=
  if isBacklog it
  then (acc.1, {[Key it]} ∪ acc.2)
  else ({[Key it]} ∪ acc.1, acc.2).

(** Body of the second To Do loop: promote the backlog parent of a ticket
    that is in [topSet].  [topSet] is read while it is being extended. *)
Definition promoteStep (present : gset string) (acc : sets) (it : JiraIssue) : sets :=
  if negb (bool_decide (Key it ∈ acc.1)) then acc
  else if Subtask it && negb (String.eqb (ParentKey it) "") then
    if bool_decide (ParentKey it ∈ present)
    then ({[ParentKey it]} ∪ acc.1, acc.2 ∖ {[ParentKey it]})
    else acc
  else acc.

Definition presentKeys (issues : list JiraIssue) : gset string :=
  list_to_set (Key <$> issues).

(** [topSet] and [backlogSet] as they stand before the first pass. *)
Definition partitionSets (columnTitle : string) (issues : list JiraIssue) : sets :=
  if String.eqb columnTitle "To Do"
  then foldl (promoteStep (presentKeys issues))
             (foldl splitStep (∅, ∅) issues) issues
  else (presentKeys issues, ∅).

(** The children [appendGroup] adds after [parent]: subtasks naming
    [parent.Key], in original order, that are in the allow-set. *)
Definition childrenOf (issues : list JiraIssue) (parent : JiraIssue)
    (allow : gset string) : list JiraIssue :=
  filter (λ it, Subtask it = true ∧ ParentKey it = Key parent ∧ Key it ∈ allow)
         issues.

Definition appendGroup (issues : list JiraIssue) (dst : list JiraIssue)
    (parent : JiraIssue) (allow : gset string) : list JiraIssue :=
  dst ++ parent :: childrenOf issues parent allow.

(** Loop state of a pass: [seen] and [out]. *)
Definition passState : Type := gset string * list JiraIssue.

(** Body of the first and of the second pass; they differ in the set. *)
Definition passStep (issues : list JiraIssue) (set : gset string)
    (st : passState) (it : JiraIssue) : passState :=
  if negb (bool_decide (Key it ∈ set)) then st
  else if bool_decide (Key it ∈ st.1) then st
  else if Subtask it && negb (String.eqb (ParentKey it) "")
          && bool_decide (ParentKey it ∈ set) then st
  else (({[Key it]} ∪ st.1) ∪ list_to_set (Key <$> childrenOf issues it set),
        appendGroup issues st.2 it set).

Definition runPass (issues : list JiraIssue) (set : gset string)
    (st : passState) : passState :=
  foldl (passStep issues set) st issues.

Definition reorderAndGroupIssues (columnTitle : string) (issues : list JiraIssue)
  : list JiraIssue :=
  match issues with
  | [] => issues
  | _ =>
      let '(topSet, backlogSet) := partitionSets columnTitle issues in
      let st1 := runPass issues topSet (∅, []) in
      if String.eqb columnTitle "To Do"
      then (runPass issues backlogSet st1).2
      else st1.2
  end.

End Grouping.

(* ================================================================== *)
(** ** Filter/Group engine: [filterAndGroupColumn] *)
(* ================================================================== *)

Module Filter.
Import usercfg Grouping.

(** The local struct [scoredIssue]. *)
Record scoredIssue := Scored {
  issue : JiraIssue;
  score : Z
}.

(** [bestScore] of one ticket: the larger of key score and summary score. *)
Definition bestScore (normalizedFilter : string) (it : JiraIssue) : Z :=
  let keyScore := FuzzyScore normalizedFilter (NormalizeSearchText (Key it)) in
  let summaryScore := FuzzyScore normalizedFilter (NormalizeSearchText (Summary it)) in
  if (keyScore <? summaryScore)%Z then summaryScore else keyScore.

(** Body of the scoring loop: append the ticket when its score is positive. *)
Definition scoreStep (normalizedFilter : string) (scored : list scoredIssue)
    (it : JiraIssue) : list scoredIssue :=
  let bestScore := bestScore normalizedFilter it in
  if (0 <? bestScore)%Z then scored ++ [Scored it bestScore] else scored.

Definition scoreAll (normalizedFilter : string) (all : list JiraIssue)
  : list scoredIssue :=
  foldl (scoreStep normalizedFilter) [] all.

(** Body of the inner sort loop:
    [if scored[j].score > scored[i].score { swap }]. *)
Definition swapIfGreater (i j : nat) (scored : list scoredIssue) : list scoredIssue :=
  match scored !! i, scored !! j with
  | Some si, Some sj =>
      if (score si <? score sj)%Z then <[j:=si]> (<[i:=sj]> scored) else scored
  | _, _ => scored
  end.

(** [for j := ...; j < len(scored); j++], with [n] iterations left. *)
Fixpoint innerLoop (n i j : nat) (scored : list scoredIssue) : list scoredIssue :=
  match n with
  | O => scored
  | S n' => innerLoop n' i (S j) (swapIfGreater i j scored)
  end.

(** [for i := ...; i < len(scored)-1; i++], with [n] iterations left; the
    inner loop starts at [j = i+1] and runs [len(scored) - (i+1)] times. *)
Fixpoint outerLoop (n i : nat) (scored : list scoredIssue) : list scoredIssue :=
  match n with
  | O => scored
  | S n' =>
      outerLoop n' (S i) (innerLoop (length scored - S i) i (S i) scored)
  end.

(** The sort of [filterAndGroupColumn]: an exchange sort written in place. *)
Definition sortByScore (scored : list scoredIssue) : list scoredIssue :=
  outerLoop (length scored - 1) 0 scored.

Definition filterAndGroupColumn (title : string) (all : list JiraIssue)
    (filter : string) : list JiraIssue :=
  if String.eqb filter "" then reorderAndGroupIssues title all
  else
    let normalizedFilter := NormalizeSearchText filter in
    let scored := sortByScore (scoreAll normalizedFilter all) in
    reorderAndGroupIssues title (issue <$> scored).

End Filter.

(* ================================================================== *)
(** ** Board state *)
(* ================================================================== *)

(** An [error] value; the loaders tell the two context errors from the
    rest. *)
Inductive goError :=
| DeadlineExceeded
| Canceled
| ErrorString (text : string).

(** [tea.KeyMsg] of the Bubble Tea library: the key type, with the runes
    of a [KeyRunes] message.  [keyString] is [msg.String()]. *)
Inductive KeyMsg :=
| KeyRunes (runes : string)
| KeyEsc | KeyCtrlC | KeyEnter
| KeyUp | KeyDown | KeyLeft | KeyRight
| KeyTab | KeyShiftTab
| KeyPgUp | KeyPgDown | KeyHome | KeyEnd.

Definition keyString (k : KeyMsg) : string :=
  match k with
  | KeyRunes runes => runes
  | KeyEsc => "esc" | KeyCtrlC => "ctrl+c" | KeyEnter => "enter"
  | KeyUp => "up" | KeyDown => "down" | KeyLeft => "left" | KeyRight => "right"
  | KeyTab => "tab" | KeyShiftTab => "shift+tab"
  | KeyPgUp => "pgup" | KeyPgDown => "pgdown" | KeyHome => "home" | KeyEnd => "end"
  end.

(** The [textinput.Model] widget of the Bubbles library, an external
    collaborator of the board: its state, [textinput.New()] and the four
    methods used. *)
Class TextInput := {
  textinput : Type;
  textinputNew : textinput;
  textinputUpdate : textinput → KeyMsg → textinput;
  textinputValue : textinput → string;
  textinputSetValue : textinput → string → textinput;
  textinputFocus : textinput → textinput
}.

Module Board.
Import Grouping Filter.

(** [scopeFilter] and its four constants ([iota]). *)
Definition scopeMineOrReported : Z := 0.
Definition scopeMine : Z := 1.
Definition scopeReported : Z := 2.
Definition scopeUnassigned : Z := 3.

Record kanbanColumnView := Column {
  title : string;
  statusCategory : string;
  issues : list JiraIssue;
  allIssues : list JiraIssue;
  allByScope : gmap Z (list JiraIssue);
  cursor : Z;
  offset : Z
}.

Definition setIssues (c : kanbanColumnView) (v : list JiraIssue) :=
  Column (title c) (statusCategory c) v (allIssues c) (allByScope c) (cursor c) (offset c).
Definition setAllIssues (c : kanbanColumnView) (v : list JiraIssue) :=
  Column (title c) (statusCategory c) (issues c) v (allByScope c) (cursor c) (offset c).
Definition setAllByScope (c : kanbanColumnView) (v : gmap Z (list JiraIssue)) :=
  Column (title c) (statusCategory c) (issues c) (allIssues c) v (cursor c) (offset c).
Definition setCursor (c : kanbanColumnView) (v : Z) :=
  Column (title c) (statusCategory c) (issues c) (allIssues c) (allByScope c) v (offset c).
Definition setOffset (c : kanbanColumnView) (v : Z) :=
  Column (title c) (statusCategory c) (issues c) (allIssues c) (allByScope c) (cursor c) v.

(** [len(c.issues)] and [len(m.columns)] as a Go [int]. *)
Definition lenIssues (l : list JiraIssue) : Z := Z.of_nat (length l).
Definition lenColumns (l : list kanbanColumnView) : Z := Z.of_nat (length l).

(** A [tea.Cmd]: what the closure captured.
    - [CmdLoadData]: the closure of [loadDataCmd], which runs
      [loadColumnsConcurrently];
    - [CmdFetchScope]: the closure returned for the key "s";
    - [CmdPrefetch]: the [tea.Batch] of one [loadScopeConcurrently]
      closure per listed scope, all on the same snapshot;
    - [CmdTextInput]: whatever the text input returns for a key. *)
Inductive Cmd :=
| CmdNil
| CmdQuit
| CmdLoadData (columns : list kanbanColumnView) (scope : Z) (filter : string)
| CmdFetchScope (colsSnapshot : list kanbanColumnView) (sc : Z)
| CmdPrefetch (colsSnapshot : list kanbanColumnView) (scopes : list Z)
| CmdTextInput (k : KeyMsg).

(** The messages [Update] switches on. *)
Inductive Msg :=
| WindowSizeMsg (Width Height : Z)
| KeyPress (k : KeyMsg)
| dataLoadedMsg (columns : list kanbanColumnView)
| lazyBatchLoadedMsg (scope : Z) (byIndex : gmap Z (list JiraIssue))
| errMsg (err : goError).

Section WithTextInput.
Context `{TextInput}.

(** [boardModel].  Left out: [cfg], [styles], [helpOffset] and the three
    [pending...] fields; the embedded branches neither read nor write
    them, but for [helpOffset], which only the help overlay uses. *)
Record boardModel := Model {
  columns : list kanbanColumnView;
  selectedCol : Z;
  loading : bool;
  err : option goError;
  curScope : Z;
  width : Z;
  height : Z;
  filtering : bool;
  filterInput : textinput;
  filterText : string;      (* the field [filter] *)
  showingHelp : bool;
  launchSetup : bool
}.

Definition setColumns (m : boardModel) (v : list kanbanColumnView) :=
  Model v (selectedCol m) (loading m) (err m) (curScope m) (width m) (height m)
        (filtering m) (filterInput m) (filterText m) (showingHelp m) (launchSetup m).
Definition setSelectedCol (m : boardModel) (v : Z) :=
  Model (columns m) v (loading m) (err m) (curScope m) (width m) (height m)
        (filtering m) (filterInput m) (filterText m) (showingHelp m) (launchSetup m).
Definition setLoading (m : boardModel) (v : bool) :=
  Model (columns m) (selectedCol m) v (err m) (curScope m) (width m) (height m)
        (filtering m) (filterInput m) (filterText m) (showingHelp m) (launchSetup m).
Definition setErr (m : boardModel) (v : option goError) :=
  Model (columns m) (selectedCol m) (loading m) v (curScope m) (width m) (height m)
        (filtering m) (filterInput m) (filterText m) (showingHelp m) (launchSetup m).
Definition setCurScope (m : boardModel) (v : Z) :=
  Model (columns m) (selectedCol m) (loading m) (err m) v (width m) (height m)
        (filtering m) (filterInput m) (filterText m) (showingHelp m) (launchSetup m).
Definition setSize (m : boardModel) (w h : Z) :=
  Model (columns m) (selectedCol m) (loading m) (err m) (curScope m) w h
        (filtering m) (filterInput m) (filterText m) (showingHelp m) (launchSetup m).
Definition setFiltering (m : boardModel) (v : bool) :=
  Model (columns m) (selectedCol m) (loading m) (err m) (curScope m) (width m) (height m)
        v (filterInput m) (filterText m) (showingHelp m) (launchSetup m).
Definition setFilterInput (m : boardModel) (v : textinput) :=
  Model (columns m) (selectedCol m) (loading m) (err m) (curScope m) (width m) (height m)
        (filtering m) v (filterText m) (showingHelp m) (launchSetup m).
Definition setFilterText (m : boardModel) (v : string) :=
  Model (columns m) (selectedCol m) (loading m) (err m) (curScope m) (width m) (height m)
        (filtering m) (filterInput m) v (showingHelp m) (launchSetup m).
Definition setShowingHelp (m : boardModel) (v : bool) :=
  Model (columns m) (selectedCol m) (loading m) (err m) (curScope m) (width m) (height m)
        (filtering m) (filterInput m) (filterText m) v (launchSetup m).
Definition setLaunchSetup (m : boardModel) (v : bool) :=
  Model (columns m) (selectedCol m) (loading m) (err m) (curScope m) (width m) (height m)
        (filtering m) (filterInput m) (filterText m) (showingHelp m) v.

(** [viewportItemsHeight]. *)
Definition viewportItemsHeight (m : boardModel) : Z :=
  let reserved := if filtering m then 5 + 2 else 5 in
  let avail := Z.max 5 (height m - reserved) in
  Z.max 1 (avail - 3).

(** [itemsWindowCount]. *)
Definition itemsWindowCount (m : boardModel) : Z :=
  let base := viewportItemsHeight m in
  if (base <=? 2)%Z then 1 else base - 2.

(** [ensureCursorVisible], statement by statement. *)
Definition ensureCursorVisible (m : boardModel) (c : kanbanColumnView)
  : kanbanColumnView :=
  if (lenIssues (issues c) =? 0)%Z then setCursor (setOffset c 0) 0
  else
    let c := if (cursor c <? 0)%Z then setCursor c 0 else c in
    let c := if (lenIssues (issues c) - 1 <? cursor c)%Z
             then setCursor c (lenIssues (issues c) - 1) else c in
    let vh := itemsWindowCount m in
    let c := if (cursor c <? offset c)%Z then setOffset c (cursor c) else c in
    let c := if (offset c + vh <=? cursor c)%Z
             then setOffset c (cursor c - vh + 1) else c in
    let maxOffset := if (vh <? lenIssues (issues c))%Z
                     then lenIssues (issues c) - vh else 0 in
    let c := if (maxOffset <? offset c)%Z then setOffset c maxOffset else c in
    let c := if (offset c <? 0)%Z then setOffset c 0 else c in
    c.


(** What one call of [Update] comes to: the next model and command, a
    run-time panic (index out of range, division by zero), or the
    hand-over to the branch/worktree workflow of the keys "b" and
    "enter", which runs git and is not embedded. *)
Inductive Result :=
| Ok (m : boardModel) (cmd : Cmd)
| Panic
| Workflow.

(** [m.columns[i]] for a Go [int] index. *)
Definition columnAt (cols : list kanbanColumnView) (i : Z) : option kanbanColumnView :=
  if (i <? 0)%Z then None else cols !! Z.to_nat i.

(** [currentIssue]; the outer [None] is the panic of [c.issues[c.cursor]]. *)
Definition currentIssue (m : boardModel) : option (option JiraIssue) :=
  if (lenColumns (columns m) =? 0)%Z then Some None
  else
    match columnAt (columns m) (selectedCol m) with
    | None => None
    | Some c =>
        if (lenIssues (issues c) =? 0)%Z then Some None
        else if (cursor c <? 0)%Z then None
        else match issues c !! Z.to_nat (cursor c) with
             | Some it => Some (Some it)
             | None => None
             end
    end.

(** [m.loadDataCmd()]. *)
Definition loadDataCmd (m : boardModel) : Cmd :=
  CmdLoadData (columns m) (curScope m) (filterText m).

(** The body of the loop of the key "s" for one column: switch to the
    cached list when there is one, and keep the cursor visible either
    way. *)
Definition switchColumn (m : boardModel) (c : kanbanColumnView) : kanbanColumnView :=
  match allByScope c !! curScope m with
  | Some data =>
      let c := setAllIssues c data in
      let c := setIssues c (filterAndGroupColumn (title c) data (filterText m)) in
      ensureCursorVisible m c
  | None => ensureCursorVisible m c
  end.

(** The indices that loop collects in [missing]: the columns without a
    cache entry for [m.curScope]. *)
Definition missingIndices (m : boardModel) : list nat :=
  fst <$> filter (λ p : nat * kanbanColumnView, allByScope p.2 !! curScope m = None)
                 (imap pair (columns m)).

(** [case key == "s"]. *)
Definition updateCycleScope (m : boardModel) : Result :=
  let m := setCurScope m (Z.rem (curScope m + 1) 4) in
  let missing := missingIndices m in
  let m := setColumns m (switchColumn m <$> columns m) in
  match missing with
  | [] => Ok m CmdNil
  | _ =>
      let sc := curScope m in
      let colsSnapshot := columns m in
      let m := setColumns m
                 (foldl (λ cols i, alter (λ c, setIssues c []) i cols)
                        (columns m) missing) in
      Ok m (CmdFetchScope colsSnapshot sc)
  end.

(** Apply [f] to [m.columns[i]]; out of range panics. *)
Definition withColumn (m : boardModel) (i : Z)
    (f : kanbanColumnView → kanbanColumnView) : Result :=
  match columnAt (columns m) i with
  | None => Panic
  | Some c => Ok (setColumns m (<[Z.to_nat i := f c]> (columns m))) CmdNil
  end.

(** The keys handled outside the help overlay and the filter box. *)
Definition updateKey (m : boardModel) (key : string) : Result :=
  if String.eqb key "q" || String.eqb key "ctrl+c" then Ok m CmdQuit
  else if String.eqb key "?" then Ok (setShowingHelp m (negb (showingHelp m))) CmdNil
  else if String.eqb key "w" then Ok (setLaunchSetup m true) CmdQuit
  else if String.eqb key "s" then updateCycleScope m
  else if String.eqb key "/" then
    Ok (setFilterInput (setFiltering m true)
          (textinputFocus (textinputSetValue (filterInput m) (filterText m))))
       CmdNil
  else if String.eqb key "o" then
    match currentIssue m with
    | None => Panic
    | Some _ => Ok m CmdNil
    end
  else if String.eqb key "b" || String.eqb key "enter" then Workflow
  else if String.eqb key "r" then Ok (setLoading m true) (loadDataCmd m)
  else if String.eqb key "l" || String.eqb key "right" || String.eqb key "tab" then
    if (lenColumns (columns m) =? 0)%Z then Panic
    else
      let m := setSelectedCol m (Z.rem (selectedCol m + 1) (lenColumns (columns m))) in
      withColumn m (selectedCol m) (ensureCursorVisible m)
  else if String.eqb key "h" || String.eqb key "left" || String.eqb key "shift+tab" then
    if (lenColumns (columns m) =? 0)%Z then Panic
    else
      let m := setSelectedCol m
                 (Z.rem (selectedCol m - 1 + lenColumns (columns m))
                        (lenColumns (columns m))) in
      withColumn m (selectedCol m) (ensureCursorVisible m)
  else if String.eqb key "j" || String.eqb key "down" then
    withColumn m (selectedCol m) (λ col,
      if (0 <? lenIssues (issues col))%Z && (cursor col <? lenIssues (issues col) - 1)%Z
      then ensureCursorVisible m (setCursor col (cursor col + 1))
      else col)
  else if String.eqb key "k" || String.eqb key "up" then
    withColumn m (selectedCol m) (λ col,
      if (0 <? lenIssues (issues col))%Z && (0 <? cursor col)%Z
      then ensureCursorVisible m (setCursor col (cursor col - 1))
      else col)
  else Ok m CmdNil.

(** The body of the [lazyBatchLoadedMsg] loop for the entry of column
    [idx].  The loop ranges over a map, whose keys are distinct, and its
    body touches column [idx] only, so the order of iteration does not
    show and the loop is a map over the columns. *)
Definition mergeLazy (m : boardModel) (scope : Z) (issues : list JiraIssue)
    (c : kanbanColumnView) : kanbanColumnView :=
  let c := setAllByScope c (<[scope := issues]> (allByScope c)) in
  if (scope =? curScope m)%Z then
    let c := setAllIssues c issues in
    let c := setIssues c (filterAndGroupColumn (title c) issues (filterText m)) in
    ensureCursorVisible m c
  else c.

Definition allScopes : list Z :=
  [scopeMineOrReported; scopeMine; scopeReported; scopeUnassigned].

(** [Update]. *)
Definition Update (m : boardModel) (msg : Msg) : Result :=
  match msg with
  | WindowSizeMsg Width Height =>
      let m := setSize m Width Height in
      Ok (setColumns m (ensureCursorVisible m <$> columns m)) CmdNil
  | KeyPress k =>
      if showingHelp m then
        let key := keyString k in
        if String.eqb key "q" || String.eqb key "?" || String.eqb key "esc"
        then Ok (setShowingHelp m false) CmdNil
        else Ok m CmdNil          (* scrolls the overlay: [helpOffset] only *)
      else if filtering m then
        match k with
        | KeyEsc | KeyCtrlC => Ok (setFiltering m false) CmdNil
        | KeyEnter => updateKey (setFiltering m false) (keyString k)
        | _ =>
            let m := setFilterInput m (textinputUpdate (filterInput m) k) in
            let m := setFilterText m (textinputValue (filterInput m)) in
            let m := setColumns m
              ((λ c, ensureCursorVisible m
                       (setIssues c (filterAndGroupColumn (title c) (allIssues c)
                                                          (filterText m))))
                 <$> columns m) in
            Ok m (CmdTextInput k)
        end
      else updateKey m (keyString k)
  | dataLoadedMsg cols =>
      let m := setErr (setLoading m false) None in
      let m := setColumns m cols in
      let m := setColumns m (ensureCursorVisible m <$> columns m) in
      Ok m (CmdPrefetch (columns m)
              (filter (λ sc, sc ≠ curScope m) allScopes))
  | lazyBatchLoadedMsg scope byIndex =>
      Ok (setColumns m
            (imap (λ idx c,
                     match byIndex !! Z.of_nat idx with
                     | Some issues => mergeLazy m scope issues c
                     | None => c
                     end) (columns m)))
         CmdNil
  | errMsg e => Ok (setErr (setLoading m false) (Some e)) CmdNil
  end.


(** [scopeFromString]. *)
Definition scopeFromString (s : string) : Z :=
  if String.eqb s "assigned_or_reported" || String.eqb s "Assigned or Reported by Me"
  then scopeMineOrReported
  else if String.eqb s "assigned" || String.eqb s "Assigned to Me" then scopeMine
  else if String.eqb s "reported" || String.eqb s "Reported by Me" then scopeReported
  else if String.eqb s "unassigned" || String.eqb s "Unassigned" then scopeUnassigned
  else scopeMineOrReported.

(** [scopeToConfigString]. *)
Definition scopeToConfigString (s : Z) : string :=
  if (s =? scopeMineOrReported)%Z then "assigned_or_reported"
  else if (s =? scopeMine)%Z then "assigned"
  else if (s =? scopeReported)%Z then "reported"
  else if (s =? scopeUnassigned)%Z then "unassigned"
  else "assigned_or_reported".

(** [getDefaultScope], from the [DefaultScope] of the runtime config. *)
Definition getDefaultScope (DefaultScope : string) : Z :=
  if String.eqb DefaultScope "assigned" then scopeMine
  else if String.eqb DefaultScope "reported" then scopeReported
  else if String.eqb DefaultScope "unassigned" then scopeUnassigned
  else scopeMineOrReported.

(** [initialBoardModel], from what it reads of the stored preferences
    ([LastScope], [LastSelectedCol]) and of the runtime config. *)
Definition initialBoardModel (LastScope : string) (LastSelectedCol : Z)
    (DefaultScope : string) : boardModel :=
  let initialScope :=
    if negb (String.eqb LastScope "") then scopeFromString LastScope
    else getDefaultScope DefaultScope in
  let initialCol :=
    if (0 <=? LastSelectedCol)%Z && (LastSelectedCol <? 3)%Z
    then LastSelectedCol else 0 in
  {| columns := [ Column "To Do" "To Do" [] [] ∅ 0 0;
                  Column "In Progress" "In Progress" [] [] ∅ 0 0;
                  Column "Done" "Done" [] [] ∅ 0 0 ];
     selectedCol := initialCol;
     loading := true;
     err := None;
     curScope := initialScope;
     width := 0;
     height := 0;
     filtering := false;
     filterInput := textinputNew;
     filterText := "";
     showingHelp := false;
     launchSetup := false |}.

(** The board driven by a list of messages, each handled by [Update];
    [None] when a message panics or leaves for the git workflow. *)
Fixpoint run (m : boardModel) (msgs : list Msg) : option boardModel :=
  match msgs with
  | [] => Some m
  | msg :: rest =>
      match Update m msg with
      | Ok m' _ => run m' rest
      | _ => None
      end
  end.

End WithTextInput.
End Board.

(* ================================================================== *)
(** ** Bounded fan-out loaders: the collecting loops *)
(* ================================================================== *)

Module Loader.
Import Grouping Filter Board.

(** What a worker sends on the [results] channel. *)
Record columnResult := ColumnResult {
  index : nat;
  issues : list JiraIssue;
  err : option goError
}.

(** What one [select] of the collecting loop receives: a result, or the
    closing of [ctx.Done()].  The workers run concurrently; the list of
    arrivals is the order in which the loop gets to see them.  When the
    list runs out, nothing more arrives before the deadline, and the next
    [select] takes [ctx.Done()]. *)
Inductive arrival :=
| Received (result : columnResult)
| CtxDone.

(** The statements after the error check in [loadColumnsConcurrently],
    on [columns[idx]]; [len(issues)] there is the length of the raw
    result. *)
Definition storeResult (scope : Z) (filter : string) (issues : list JiraIssue)
    (col : kanbanColumnView) : kanbanColumnView :=
  let col := setAllIssues col issues in
  let col := setAllByScope col (<[scope := issues]> (allByScope col)) in
  let col := setIssues col (filterAndGroupColumn (title col) issues filter) in
  if (lenIssues issues <=? cursor col)%Z then
    if (lenIssues issues =? 0)%Z then setCursor col 0
    else setCursor col (lenIssues issues - 1)
  else col.

(** [collectLoop], with [n] iterations left.  A worker sends the index it
    was started with, so [columns[idx]] is always in range. *)
Fixpoint collectLoop (n : nat) (arrivals : list arrival)
    (columns : list kanbanColumnView) (scope : Z) (filter : string) : Msg :=
  match n with
  | O => dataLoadedMsg columns
  | S n' =>
      match arrivals with
      | [] => dataLoadedMsg columns
      | CtxDone :: _ => dataLoadedMsg columns
      | Received result :: rest =>
          match err result with
          | Some DeadlineExceeded => dataLoadedMsg columns
          | Some Canceled => dataLoadedMsg columns
          | Some e => errMsg e
          | None =>
              collectLoop n' rest
                (alter (storeResult scope filter (issues result)) (index result) columns)
                scope filter
          end
      end
  end.

(** [loadColumnsConcurrently], as a function of the arrivals. *)
Definition loadColumnsConcurrently (columns : list kanbanColumnView) (scope : Z)
    (filter : string) (arrivals : list arrival) : Msg :=
  collectLoop (length columns) arrivals columns scope filter.

(** [collectScopeLoop], with [n] iterations left. *)
Fixpoint collectScopeLoop (n : nat) (arrivals : list arrival)
    (byIdx : gmap Z (list JiraIssue)) : gmap Z (list JiraIssue) :=
  match n with
  | O => byIdx
  | S n' =>
      match arrivals with
      | [] => byIdx
      | CtxDone :: _ => byIdx
      | Received result :: rest =>
          match err result with
          | Some _ => collectScopeLoop n' rest byIdx
          | None =>
              collectScopeLoop n' rest
                (<[Z.of_nat (index result) := issues result]> byIdx)
          end
      end
  end.

(** [loadScopeConcurrently], as a function of the arrivals. *)
Definition loadScopeConcurrently (columns : list kanbanColumnView) (scope : Z)
    (arrivals : list arrival) : Msg :=
  lazyBatchLoadedMsg scope (collectScopeLoop (length columns) arrivals ∅).

(** [fetchColumnIssues] as seen by its callers: status category, scope
    and [maxResults] in, a ticket list or an error out. *)
Definition fetcher : Type := string → Z → Z → goError + list JiraIssue.

(** A call of [fetchColumnIssues]: the column it is made for, and the
    status category and scope passed. *)
Definition fetchCall : Type := nat * string * Z.

(** Body of the loop in the closure returned for the key "s", with the
    log of the calls made so far. *)
Definition fetchScopeStep (fetch : fetcher) (sc : Z)
    (acc : list fetchCall * gmap Z (list JiraIssue))
    (p : nat * kanbanColumnView) : list fetchCall * gmap Z (list JiraIssue) :=
  let calls := acc.1 ++ [(p.1, statusCategory p.2, sc)] in
  match fetch (statusCategory p.2) sc 100 with
  | inl _ => (calls, acc.2)
  | inr issues => (calls, <[Z.of_nat p.1 := issues]> acc.2)
  end.

(** Running that closure: the calls it makes and the message it returns. *)
Definition runFetchScope (fetch : fetcher) (colsSnapshot : list kanbanColumnView)
    (sc : Z) : list fetchCall * Msg :=
  let r := foldl (fetchScopeStep fetch sc) ([], ∅) (imap pair colsSnapshot) in
  (r.1, lazyBatchLoadedMsg sc r.2).

End Loader.

(* ================================================================== *)
(** ** The properties the specification states *)
(* ================================================================== *)

Module Spec.
Import Grouping Filter Board.

(** Clamp [x] into [[lo, hi]]. *)
Definition clamp (lo hi x : Z) : Z := Z.max lo (Z.min hi x).

(** The windowing algorithm in the specification's words: clamp the
    cursor into [[0, len-1]]; if [cursor < offset], [offset := cursor];
    if [cursor ≥ offset + windowHeight],
    [offset := cursor - windowHeight + 1]; finally clamp the offset into
    [[0, max(0, len - windowHeight)]]; an empty list puts both at 0. *)
Definition ensureCursorVisibleSpec (windowHeight : Z) (c : kanbanColumnView)
  : kanbanColumnView :=
  let len := lenIssues (issues c) in
  if (len =? 0)%Z then setCursor (setOffset c 0) 0
  else
    let cursor := clamp 0 (len - 1) (cursor c) in
    let offset := if (cursor <? offset c)%Z then cursor else offset c in
    let offset := if (offset + windowHeight <=? cursor)%Z
                  then cursor - windowHeight + 1 else offset in
    let offset := clamp 0 (Z.max 0 (len - windowHeight)) offset in
    setCursor (setOffset c offset) cursor.

(** The cursor invariant of a column for a window of [windowHeight]
    rows. *)
Definition cursorInvariant (windowHeight : Z) (c : kanbanColumnView) : Prop :=
  let len := lenIssues (issues c) in
  (0 < len → 0 ≤ cursor c < len) ∧
  (offset c ≤ cursor c < offset c + windowHeight) ∧
  offset c ≤ Z.max 0 (len - windowHeight).

(** [s] stands right behind [p] in [out]. *)
Definition immediatelyAfter (out : list JiraIssue) (p s : JiraIssue) : Prop :=
  ∃ l1 l2, out = l1 ++ p :: s :: l2.

(** [s] stands in the run of subtasks of [p] that follows [p] in [out]:
    between [p] and [s] there are only other subtasks of [p]. *)
Definition nestedUnder (out : list JiraIssue) (p s : JiraIssue) : Prop :=
  ∃ l1 mid l2, out = l1 ++ p :: mid ++ s :: l2 ∧
    Forall (λ c, Subtask c = true ∧ ParentKey c = Key p) mid.

(** Descending by score. *)
Definition sortedByScore (l : list Filter.scoredIssue) : Prop :=
  ∀ a b sa sb, (a < b)%nat → l !! a = Some sa → l !! b = Some sb →
               Filter.score sb ≤ Filter.score sa.

(** The navigation keys of the board. *)
Definition navigateKeys : list string :=
  ["up"; "down"; "left"; "right"; "h"; "j"; "k"; "l"; "tab"; "shift+tab"].

(** Navigate, resize and refresh events: a navigation key, a window
    resize, the refresh key, and the completion of a primary load or of a
    background load.  A primary load returns the three columns it was
    given. *)
Inductive boardEvent : Msg → Prop :=
| ev_navigate k : keyString k ∈ navigateKeys → boardEvent (KeyPress k)
| ev_resize w h : boardEvent (WindowSizeMsg w h)
| ev_refresh_key : boardEvent (KeyPress (KeyRunes "r"))
| ev_loaded cols : length cols = 3%nat → boardEvent (dataLoadedMsg cols)
| ev_lazy scope byIndex : boardEvent (lazyBatchLoadedMsg scope byIndex).

(** [p] and [s] are put in the same group, the top one or the backlog one,
    by the partition that precedes the two passes. *)
Definition sameGroup (columnTitle : string) (issues : list JiraIssue)
    (p s : JiraIssue) : Prop :=
  (Key p ∈ (partitionSets columnTitle issues).1 ∧
   Key s ∈ (partitionSets columnTitle issues).1) ∨
  (Key p ∈ (partitionSets columnTitle issues).2 ∧
   Key s ∈ (partitionSets columnTitle issues).2).

(** Stability: two tickets of [all] with the same positive score stand in
    [out] in the order they have in [all]. *)
Definition tiesKeepInputOrder (normalizedFilter : string)
    (all out : list JiraIssue) : Prop :=
  ∀ (i j : nat) (a b : JiraIssue),
    (i < j)%nat → all !! i = Some a → all !! j = Some b →
    0 < bestScore normalizedFilter a →
    bestScore normalizedFilter a = bestScore normalizedFilter b →
    ∃ i' j' : nat, (i' < j')%nat ∧ out !! i' = Some a ∧ out !! j' = Some b.

(** Invariant of the outer sort loop: the positions below [i] hold their
    final value, each at least as large as everything behind it. *)
Definition settled (i : nat) (l : list scoredIssue) : Prop :=
  ∀ a b sa sb, (a < b)%nat → (a < i)%nat → l !! a = Some sa → l !! b = Some sb →
               score sb ≤ score sa.

(** Invariant of the inner sort loop: position [i] is at least as large as
    the positions strictly between [i] and [j]. *)
Definition leads (i j : nat) (l : list scoredIssue) : Prop :=
  ∀ b si sb, (i < b)%nat → (b < j)%nat → l !! i = Some si → l !! b = Some sb →
             score sb ≤ score si.

(** An arrival that is the result of a fetch without error. *)
Definition succeeded (a : Loader.arrival) : Prop :=
  ∃ r, a = Loader.Received r ∧ Loader.err r = None.

Section Steady.
Context `{TextInput}.

(** The board between two events of a session without overlay and filter
    box: three columns, one of them selected, and the cursor invariant in
    every column. *)
Definition steady (m : boardModel) : Prop :=
  length (columns m) = 3%nat ∧ 0 ≤ selectedCol m < 3 ∧
  showingHelp m = false ∧ filtering m = false ∧
  Forall (cursorInvariant (itemsWindowCount m)) (columns m).

End Steady.

End Spec.

(** A plain text input for the examples: the value is the text typed so
    far. *)
Definition plainTextInput : TextInput :=
  {| textinput := string;
     textinputNew := "";
     textinputUpdate := λ v k, match k with KeyRunes r => v +:+ r | _ => v end;
     textinputValue := λ v, v;
     textinputSetValue := λ _ v, v;
     textinputFocus := λ v, v |}.

(* ================================================================== *)
(** ** Example data *)
(* ================================================================== *)

Module Examples.
Import Grouping Filter Loader Board.

(** The three tickets of the To Do scenario. *)
Definition ticketA : JiraIssue := mkIssue "GCI-1" "write the parser" false "" "To Do".
Definition ticketB : JiraIssue := mkIssue "GCI-2" "board epic" false "" "Backlog".
Definition ticketC : JiraIssue := mkIssue "GCI-3" "draw the columns" true "GCI-2" "To Do".

(** An active parent, an unrelated active ticket, and a backlog subtask of
    the parent. *)
Definition parentP : JiraIssue := mkIssue "GCI-10" "release" false "" "To Do".
Definition otherX : JiraIssue := mkIssue "GCI-11" "fix typo" false "" "To Do".
Definition subtaskS : JiraIssue := mkIssue "GCI-12" "tag the build" true "GCI-10" "Backlog".

(** Two tickets with the same summary, and a third that matches better. *)
Definition bug1 : JiraIssue := mkIssue "P-1" "bug" false "" "Done".
Definition bug2 : JiraIssue := mkIssue "P-2" "bug" false "" "Done".
Definition bug3 : JiraIssue := mkIssue "P-3" "bg" false "" "Done".

(** A board on scope 0 whose first column alone has a cache entry for
    scope 1. *)
Definition partlyCached : boardModel (H := plainTextInput) :=
  {| columns := [ Column "To Do" "To Do" [ticketA] [ticketA]
                    (<[1 := [ticketB]]> (<[0 := [ticketA]]> ∅)) 0 0;
                  Column "In Progress" "In Progress" [] [] (<[0 := []]> ∅) 0 0;
                  Column "Done" "Done" [bug1] [bug1] (<[0 := [bug1]]> ∅) 0 0 ];
     selectedCol := 0; loading := false; err := None; curScope := 0;
     width := 80; height := 24; filtering := false;
     filterInput := @textinputNew plainTextInput; filterText := ""; showingHelp := false;
     launchSetup := false |}.

(** A board on scope 0 with a cache entry for scope 1 in every column. *)
Definition fullyCached : boardModel (H := plainTextInput) :=
  {| columns := [ Column "To Do" "To Do" [ticketA] [ticketA]
                    (<[1 := [ticketA; ticketB; ticketC]]> (<[0 := [ticketA]]> ∅)) 0 0;
                  Column "In Progress" "In Progress" [] [] (<[1 := []]> ∅) 0 0;
                  Column "Done" "Done" [bug1] [bug1]
                    (<[1 := [bug2]]> (<[0 := [bug1]]> ∅)) 0 0 ];
     selectedCol := 0; loading := false; err := None; curScope := 0;
     width := 80; height := 24; filtering := false;
     filterInput := @textinputNew plainTextInput; filterText := ""; showingHelp := false;
     launchSetup := false |}.

(** A fetcher that finds nothing. *)
Definition fetchNothing : fetcher := λ _ _ _, inr [].

(** A short session: resize, a completed load, two moves. *)
Definition session : list Msg :=
  [ WindowSizeMsg 80 24;
    dataLoadedMsg [ Column "To Do" "To Do" [ticketA; ticketB; ticketC] [] ∅ 7 9;
                    Column "In Progress" "In Progress" [] [] ∅ 0 0;
                    Column "Done" "Done" [bug1] [] ∅ 0 0 ];
    KeyPress KeyDown;
    KeyPress KeyTab ].

(** What the collecting loop receives when the second of three tasks
    fails. *)
Definition firstOk : arrival := Received (ColumnResult 0 [ticketA] None).
Definition secondFails : columnResult := ColumnResult 1 [] (Some (ErrorString "jira_connection")).
Definition thirdOk : arrival := Received (ColumnResult 2 [bug1] None).

End Examples.

(* ================================================================== *)
(** ** Further code of the board: text helpers *)
(* ================================================================== *)

Module GoText.
Import GoStrings.

(** The bytes of a string, in order. *)
Definition chars (s : string) : list ascii := String.list_ascii_of_string s.



End GoText.

(* ================================================================== *)
(** ** Further code of the board: scope texts, queries, preferences *)
(* ================================================================== *)

Module Scopes.
Import Board.

(** [scopeToString], the text shown in the header. *)
Definition scopeToString (s : Z) : string :=
  if (s =? scopeMineOrReported)%Z then "Assigned or Reported by Me"
  else if (s =? scopeMine)%Z then "Assigned to Me"
  else if (s =? scopeReported)%Z then "Reported by Me"
  else if (s =? scopeUnassigned)%Z then "Unassigned"
  else "".







(** [usercfg.UIPreferences], with the two fields the board reads back.
    [ColumnWidths] is computed in floating point and never read by the
    board; it is left out. *)
Record UIPreferences := UIPrefs {
  LastScope : string;
  LastSelectedCol : Z
}.

Section WithTextInput.
Context `{TextInput}.

(** The [prefs] value [saveUIPreferences] hands to [usercfg.SaveUIPrefs]. *)
Definition savedPreferences (m : boardModel) : UIPreferences :=
  {| LastScope := scopeToConfigString (curScope m);
     LastSelectedCol := selectedCol m |}.

End WithTextInput.
End Scopes.

(* ================================================================== *)
(** ** Further code of the board: what [View] puts in a column *)
(* ================================================================== *)

Module Rendering.
Import GoStrings Board.

(** One line of a column box, by what it shows.  The text of a ticket
    line (key, summary, tags, clipping, colours) is not embedded: the line
    records the row drawn, its ticket, and whether it is highlighted. *)
Inductive itemLine :=
| LineLoading                 (* "(loading…)" *)
| LineEmpty                   (* "(empty)" *)
| LineAbove (n : Z)           (* "… n above" *)
| LineBelow (n : Z)           (* "… n below" *)
| LineSpacer                  (* the empty indicator line *)
| LineIssue (idx : Z) (it : JiraIssue) (selected : bool).

Section WithTextInput.
Context `{TextInput}.

(** [c.issues[idx]] for a Go [int] index. *)
Definition issueAt (l : list JiraIssue) (idx : Z) : option JiraIssue :=
  if (idx <? 0)%Z then None else l !! Z.to_nat idx.

(** The [items] of column [i] in [View]; [None] is the panic of an index
    out of range, in [c.issues[idx]] or in [colWidths[i]], the slice of
    three widths. *)
Definition columnItems (m : boardModel) (i : Z) (c : kanbanColumnView)
    : option (list itemLine) :=
  let itemsWindow := itemsWindowCount m in
  if (lenIssues (issues c) =? 0)%Z then
    match allByScope c !! curScope m with
    | None => Some [LineLoading]
    | Some _ => Some [LineEmpty]
    end
  else
    let start := offset c in
    let end_ := Z.min (lenIssues (issues c)) (start + itemsWindow) in
    let top := if (0 <? start)%Z then LineAbove start else LineSpacer in
    let bottom := if (end_ <? lenIssues (issues c))%Z
                  then LineBelow (lenIssues (issues c) - end_) else LineSpacer in
    rows ← mapM (λ idx, it ← issueAt (issues c) idx;
                        if (i <? 0)%Z || (3 <=? i)%Z then None
                        else Some (LineIssue idx it
                                     ((i =? selectedCol m)%Z && (idx =? cursor c)%Z)))
                (seqZ start (end_ - start));
    Some (top :: rows ++ [bottom]).

(** The ticket lines among the items. *)
Definition isIssueLine (l : itemLine) : bool :=
  match l with LineIssue _ _ _ => true | _ => false end.

End WithTextInput.

(** [clip]: cut [s] to [w] bytes, with an ellipsis when there is room. *)
Definition clip (s : string) (w : Z) : string :=
  if (w <=? 0)%Z || (len s <=? w)%Z then s
  else if (w <=? 3)%Z then String.substring 0 (Z.to_nat w) s
  else String.substring 0 (Z.to_nat (w - 3)) s +:+ "...".

End Rendering.

(* ================================================================== *)
(** ** Further code: branch names *)
(* ================================================================== *)

Module Branch.
Import GoStrings.

(** A byte of the class [a-z0-9]. *)
Definition isSlugByte (c : ascii) : bool := byteIn 97 122 c || byteIn 48 57 c.

(** [regexp.MustCompile(`[^a-z0-9]+`).ReplaceAllString(s, "-")]: every
    maximal run of bytes outside the class becomes one hyphen.  [inRun]
    says that the byte before was outside the class. *)
Fixpoint replaceRuns (inRun : bool) (s : string) : string :=
  match s with
  | EmptyString => EmptyString
  | String c r =>
      if isSlugByte c then String c (replaceRuns false r)
      else if inRun then replaceRuns true r
      else String "-" (replaceRuns true r)
  end.

(** [strings.TrimLeft(s, "-")] and [strings.TrimRight(s, "-")]. *)
Fixpoint TrimLeft (s : string) : string :=
  match s with
  | String c r => if Ascii.eqb c "-" then TrimLeft r else s
  | EmptyString => EmptyString
  end.

Fixpoint TrimRight (s : string) : string :=
  match s with
  | EmptyString => EmptyString
  | String c r =>
      match TrimRight r with
      | EmptyString => if Ascii.eqb c "-" then EmptyString else String c EmptyString
      | r' => String c r'
      end
  end.

(** [strings.Trim(s, "-")]. *)
Definition Trim (s : string) : string := TrimRight (TrimLeft s).

(** The summary part of a branch name, as [makeBranchName] computes it. *)
Definition branchSlug (summary : string) : string :=
  let summary := ToLower summary in
  let summary := replaceRuns false summary in
  let summary := Trim summary in
  if (50 <? len summary)%Z
  then TrimRight (String.substring 0 50 summary)
  else summary.

(** [makeBranchName]. *)
Definition makeBranchName (key summary : string) : string :=
  key +:+ "_" +:+ branchSlug summary.

(** [createBranchName]. *)
Definition createBranchName (issue : JiraIssue) : string :=
  makeBranchName (Key issue) (Summary issue).

End Branch.

(* ================================================================== *)
(** ** Further properties of a column *)
(* ================================================================== *)

Module BoardFacts.
Import Board.

(** A column as [ensureCursorVisible] leaves it for a window of
    [windowHeight] rows: cursor and offset are 0 on an empty list, and on a
    non-empty list the cursor is a row of the list, the offset is not
    negative, the cursor is inside the window that starts at the offset,
    and the window does not start later than it has to. *)
Definition windowed (windowHeight : Z) (c : kanbanColumnView) : Prop :=
  (lenIssues (issues c) = 0 → cursor c = 0 ∧ offset c = 0) ∧
  (0 < lenIssues (issues c) →
     0 ≤ cursor c < lenIssues (issues c) ∧ 0 ≤ offset c ∧
     offset c ≤ cursor c < offset c + windowHeight ∧
     offset c ≤ Z.max 0 (lenIssues (issues c) - windowHeight)).


End BoardFacts.

(* ================================================================== *)
(** ** Proofs *)
(* ================================================================== *)

Import GoStrings usercfg Grouping Filter Loader Board Spec Examples.

(** Boolean comparisons in the context become arithmetic facts. *)
Ltac bool_to_prop :=
  repeat match goal with
  | H : (_ <? _) = true |- _ => apply Z.ltb_lt in H
  | H : (_ <? _) = false |- _ => apply Z.ltb_ge in H
  | H : (_ <=? _) = true |- _ => apply Z.leb_le in H
  | H : (_ <=? _) = false |- _ => apply Z.leb_gt in H
  | H : (_ =? _) = true |- _ => apply Z.eqb_eq in H
  | H : (_ =? _) = false |- _ => apply Z.eqb_neq in H
  end.

(** Case analysis on the tests of [ensureCursorVisible], innermost first. *)
Ltac split_ifs :=
  repeat match goal with
  | |- context [if ?b then _ else _] =>
      lazymatch b with
      | context [if _ then _ else _] => fail
      | _ => destruct b eqn:?
      end; cbn [cursor offset Board.issues setCursor setOffset] in *
  end.

(** *** Scope strings *)

(** C10: for each of the four scopes, [scopeFromString] undoes
    [scopeToConfigString]: the scope string stored in the preferences when
    the board exits is read back as the same scope when the next board
    starts. *)
Theorem scope_config_roundtrip (s : Z) :
  s ∈ allScopes → scopeFromString (scopeToConfigString s) = s.
Proof.
  unfold allScopes. rewrite !elem_of_cons, elem_of_nil.
  intros [-> | [-> | [-> | [-> | []]]]]; reflexivity.
Qed.

Lemma scope_config_roundtrip_witness :
  scopeReported ∈ allScopes ∧
  scopeFromString (scopeToConfigString scopeReported) = scopeReported.
Proof.
  assert (Hin : scopeReported ∈ allScopes).
  { unfold allScopes. do 2 apply list_elem_of_further. apply list_elem_of_here. }
  split; [exact Hin | exact (scope_config_roundtrip scopeReported Hin)].
Defined.

(** *** Windowing *)

Section Windowing.
Context `{TextInput}.

Lemma itemsWindowCount_pos (m : boardModel) : 1 ≤ itemsWindowCount m.
Proof.
  unfold itemsWindowCount, viewportItemsHeight.
  destruct (filtering m); case_match; bool_to_prop; lia.
Qed.

Lemma itemsWindowCount_setColumns (m : boardModel) (cols : list kanbanColumnView) :
  itemsWindowCount (setColumns m cols) = itemsWindowCount m.
Proof. reflexivity. Qed.

(** C6: [ensureCursorVisible] is the windowing algorithm of the
    specification, for the window height [itemsWindowCount] computes: on a
    non-empty list the cursor is clamped into [0, len-1], the offset follows
    the cursor up ([cursor < offset]) or down
    ([cursor ≥ offset + windowHeight]) and is then clamped into
    [0, max(0, len - windowHeight)]; on an empty list both become 0. *)
Theorem ensureCursorVisible_refines_spec (m : boardModel) (c : kanbanColumnView) :
  ensureCursorVisible m c = ensureCursorVisibleSpec (itemsWindowCount m) c.
Proof.
  unfold ensureCursorVisible, ensureCursorVisibleSpec, clamp.
  generalize (itemsWindowCount m). intros vh.
  destruct c as [t sc iss all cache cur off].
  cbn [cursor offset Board.issues setCursor setOffset].
  split_ifs; bool_to_prop; unfold setCursor, setOffset, lenIssues in *; cbn;
    f_equal; lia.
Qed.

Lemma ensureCursorVisible_invariant (m : boardModel) (c : kanbanColumnView) :
  cursorInvariant (itemsWindowCount m) (ensureCursorVisible m c).
Proof.
  pose proof (itemsWindowCount_pos m) as Hvh. revert Hvh.
  unfold ensureCursorVisible, cursorInvariant.
  generalize (itemsWindowCount m). intros vh Hvh.
  destruct c as [t sc iss all cache cur off].
  cbn [cursor offset Board.issues setCursor setOffset].
  split_ifs; bool_to_prop; unfold lenIssues in *; lia.
Qed.

Lemma ensureCursorVisible_frame (m : boardModel) (c : kanbanColumnView) :
  title (ensureCursorVisible m c) = title c ∧
  statusCategory (ensureCursorVisible m c) = statusCategory c ∧
  Board.issues (ensureCursorVisible m c) = Board.issues c ∧
  allIssues (ensureCursorVisible m c) = allIssues c ∧
  allByScope (ensureCursorVisible m c) = allByScope c.
Proof.
  unfold ensureCursorVisible. destruct c as [t sc iss all cache cur off].
  cbn [cursor offset Board.issues setCursor setOffset].
  split_ifs; by cbn.
Qed.

Lemma columnAt_Some (cols : list kanbanColumnView) (i : Z) :
  0 ≤ i < lenColumns cols →
  ∃ c, columnAt cols i = Some c ∧ cols !! Z.to_nat i = Some c.
Proof.
  intros Hi. unfold columnAt, lenColumns in *.
  destruct (Z.ltb_spec i 0); [lia|].
  destruct (lookup_lt_is_Some_2 cols (Z.to_nat i)) as [c Hc]; [lia|]. eauto.
Qed.

Lemma withColumn_steady (m : boardModel) (f : kanbanColumnView → kanbanColumnView) :
  steady m →
  (∀ c, cursorInvariant (itemsWindowCount m) c →
        cursorInvariant (itemsWindowCount m) (f c)) →
  ∃ m', withColumn m (selectedCol m) f = Ok m' CmdNil ∧ steady m'.
Proof.
  intros (Hlen & Hsel & Hhelp & Hfil & Hinv) Hf. unfold withColumn.
  destruct (columnAt_Some (columns m) (selectedCol m)) as (c & -> & Hc).
  { unfold lenColumns. lia. }
  eexists; split; [reflexivity|].
  unfold steady; cbn. rewrite length_insert. repeat split; try done; try lia.
  apply Forall_insert; [done|]. apply Hf.
  eapply Forall_lookup_1; eauto.
Qed.

Lemma updateKey_navigate_steady (m : boardModel) (key : string) :
  steady m → key ∈ navigateKeys → ∃ m' cmd, updateKey m key = Ok m' cmd ∧ steady m'.
Proof.
  intros Hm Hkey. pose proof Hm as (Hlen & Hsel & Hhelp & Hfil & Hinv).
  assert (Hcols : lenColumns (columns m) = 3) by (unfold lenColumns; lia).
  unfold navigateKeys in Hkey. rewrite !elem_of_cons, elem_of_nil in Hkey.
  assert (Hmove : ∀ sel', 0 ≤ sel' < 3 →
    ∃ m' cmd, withColumn (setSelectedCol m sel') sel'
                (ensureCursorVisible (setSelectedCol m sel')) = Ok m' cmd ∧ steady m').
  { intros sel' Hsel'.
    destruct (withColumn_steady (setSelectedCol m sel')
                (ensureCursorVisible (setSelectedCol m sel'))) as (m' & Hm' & Hst).
    - unfold steady; cbn. repeat split; try done; lia.
    - intros c _. apply ensureCursorVisible_invariant.
    - eauto. }
  assert (Hstay : ∀ (b : kanbanColumnView → bool)
                    (g : kanbanColumnView → kanbanColumnView),
    ∃ m' cmd, withColumn m (selectedCol m)
                (λ col, if b col then ensureCursorVisible m (g col) else col)
              = Ok m' cmd ∧ steady m').
  { intros b g.
    destruct (withColumn_steady m
                (λ col, if b col then ensureCursorVisible m (g col) else col) Hm)
      as (m' & Hm' & Hst).
    - intros c Hc. destruct (b c); [apply ensureCursorVisible_invariant | done].
    - eauto. }
  destruct Hkey as [-> | [-> | [-> | [-> | [-> | [-> | [-> | [-> | [-> | [-> | []]]]]]]]]]];
    unfold updateKey; cbn [String.eqb Ascii.eqb Bool.eqb orb andb]; rewrite ?Hcols;
    cbn [Z.eqb]; first [ apply Hstay | apply Hmove ].
  all: rewrite Z.rem_mod_nonneg by lia; apply Z.mod_pos_bound; lia.
Qed.

Lemma mergeLazy_invariant (m : boardModel) (scope : Z) (iss : list JiraIssue)
    (c : kanbanColumnView) :
  cursorInvariant (itemsWindowCount m) c →
  cursorInvariant (itemsWindowCount m) (mergeLazy m scope iss c).
Proof.
  intros Hc. unfold mergeLazy. destruct (scope =? curScope m).
  - apply ensureCursorVisible_invariant.
  - exact Hc.
Qed.

Lemma Update_event_steady (m : boardModel) (msg : Msg) :
  steady m → boardEvent msg → ∃ m' cmd, Update m msg = Ok m' cmd ∧ steady m'.
Proof.
  intros Hm Hev. pose proof Hm as (Hlen & Hsel & Hhelp & Hfil & Hinv).
  destruct Hev as [k Hk | w h | | cols Hcols | scope byIndex]; cbn [Update].
  - rewrite Hhelp, Hfil. by apply updateKey_navigate_steady.
  - do 2 eexists; split; [reflexivity|].
    unfold steady. rewrite itemsWindowCount_setColumns. cbn.
    rewrite length_fmap. repeat split; try done; try lia.
    apply Forall_fmap, Forall_true. intros c. apply ensureCursorVisible_invariant.
  - rewrite Hhelp, Hfil. do 2 eexists; split; [reflexivity|].
    unfold steady; cbn. repeat split; try done; lia.
  - do 2 eexists; split; [reflexivity|].
    unfold steady. rewrite itemsWindowCount_setColumns. cbn.
    rewrite length_fmap. repeat split; try done; try lia.
    apply Forall_fmap, Forall_true. intros c. apply ensureCursorVisible_invariant.
  - do 2 eexists; split; [reflexivity|].
    unfold steady. rewrite itemsWindowCount_setColumns. cbn.
    rewrite length_imap. repeat split; try done; try lia.
    apply Forall_lookup_2. intros i c'. rewrite list_lookup_imap.
    destruct (columns m !! i) as [c|] eqn:Hc; [|done]. cbn. intros [= <-].
    pose proof (Forall_lookup_1 _ _ _ _ Hinv Hc) as Hci.
    destruct (byIndex !! Z.of_nat i); [by apply mergeLazy_invariant | done].
Qed.

Lemma run_events_steady (msgs : list Msg) (m : boardModel) :
  steady m → Forall boardEvent msgs → ∃ m', run m msgs = Some m' ∧ steady m'.
Proof.
  revert m. induction msgs as [|msg msgs IH]; intros m Hm Hev.
  - exists m. by split.
  - apply Forall_cons in Hev as [Hmsg Hrest].
    destruct (Update_event_steady m msg Hm Hmsg) as (m1 & cmd & Hup & Hm1).
    cbn [run]. rewrite Hup. by apply IH.
Qed.

Lemma initialBoardModel_steady (LastScope : string) (LastSelectedCol : Z)
    (DefaultScope : string) :
  steady (initialBoardModel LastScope LastSelectedCol DefaultScope).
Proof.
  assert (Hcol : ∀ t sc, cursorInvariant
            (itemsWindowCount (initialBoardModel LastScope LastSelectedCol DefaultScope))
            (Column t sc [] [] ∅ 0 0)).
  { intros t sc. pose proof (itemsWindowCount_pos
      (initialBoardModel LastScope LastSelectedCol DefaultScope)) as Hpos.
    unfold cursorInvariant; cbn. lia. }
  split; [reflexivity|]. split.
  { cbn. destruct (Z.leb_spec 0 LastSelectedCol); cbn; [|lia].
    destruct (Z.ltb_spec LastSelectedCol 3); lia. }
  split; [reflexivity|]. split; [reflexivity|].
  cbn [columns initialBoardModel]. repeat apply Forall_cons_2; auto.
Qed.

(** C5: start the board as [initialBoardModel] does, whatever the stored
    preferences, and feed it any sequence of navigation keys
    (up/down/left/right, h/j/k/l, tab/shift+tab), window resizes and data
    refreshes (the refresh key, a completed primary load, a completed
    background load).  After each event, that is after every prefix of the
    sequence, [Update] has returned a model, and every column of it has
    [0 ≤ cursor < len] when its list is non-empty,
    [offset ≤ cursor < offset + windowHeight] and
    [offset ≤ max(0, len - windowHeight)]. *)
Theorem cursor_invariant_after_each_event (LastScope : string) (LastSelectedCol : Z)
    (DefaultScope : string) (msgs : list Msg) (n : nat) :
  Forall boardEvent msgs →
  ∃ m', run (initialBoardModel LastScope LastSelectedCol DefaultScope) (take n msgs)
          = Some m' ∧
        Forall (cursorInvariant (itemsWindowCount m')) (columns m').
Proof.
  intros Hev.
  destruct (run_events_steady (take n msgs)
              (initialBoardModel LastScope LastSelectedCol DefaultScope))
    as (m' & Hrun & Hst).
  - apply initialBoardModel_steady.
  - by apply Forall_take.
  - exists m'. split; [done|]. apply Hst.
Qed.

End Windowing.

Lemma cursor_invariant_after_each_event_witness :
  Forall boardEvent session ∧
  ∃ m', run (initialBoardModel (H := plainTextInput) "reported" 2 "assigned")
          (take 4 session) = Some m' ∧
        Forall (cursorInvariant (itemsWindowCount m')) (columns m').
Proof.
  assert (Hev : Forall boardEvent session).
  { unfold session. repeat apply Forall_cons_2; try apply Forall_nil_2.
    - apply ev_resize.
    - apply ev_loaded. reflexivity.
    - apply ev_navigate. cbn. unfold navigateKeys.
      apply list_elem_of_further, list_elem_of_here.
    - apply ev_navigate. cbn. unfold navigateKeys.
      do 8 apply list_elem_of_further. apply list_elem_of_here. }
  split; [exact Hev|].
  exact (cursor_invariant_after_each_event (H := plainTextInput)
           "reported" 2 "assigned" session 4 Hev).
Defined.

(** *** The board's reaction to scope changes and background results *)

Section Update.
Context `{TextInput}.

(** C7: when the result of a background load for scope [S] is merged
    while the board shows another scope, [Update] returns no command and
    changes nothing but the cache: in each column for which the result has
    an entry, [allByScope[S]] becomes that entry; the displayed list,
    [allIssues], cursor and offset of every column, the other cache
    entries, the number of columns and every other field of the board stay
    as they were. *)
Theorem lazy_merge_other_scope_frame (m : boardModel) (S : Z)
    (byIndex : gmap Z (list JiraIssue)) :
  S ≠ curScope m →
  ∃ m', Update m (lazyBatchLoadedMsg S byIndex) = Ok m' CmdNil ∧
    selectedCol m' = selectedCol m ∧ loading m' = loading m ∧ err m' = err m ∧
    curScope m' = curScope m ∧ width m' = width m ∧ height m' = height m ∧
    filtering m' = filtering m ∧ filterInput m' = filterInput m ∧
    filterText m' = filterText m ∧ showingHelp m' = showingHelp m ∧
    launchSetup m' = launchSetup m ∧
    length (columns m') = length (columns m) ∧
    ∀ (i : nat) (c : kanbanColumnView), columns m !! i = Some c →
      ∃ c', columns m' !! i = Some c' ∧
        title c' = title c ∧ statusCategory c' = statusCategory c ∧
        Board.issues c' = Board.issues c ∧ allIssues c' = allIssues c ∧
        cursor c' = cursor c ∧ offset c' = offset c ∧
        allByScope c' = match byIndex !! Z.of_nat i with
                        | Some iss => <[S := iss]> (allByScope c)
                        | None => allByScope c
                        end.
Proof.
  intros HS. eexists. split; [reflexivity|]. cbn.
  repeat (split; [reflexivity|]). split; [apply length_imap|].
  intros i c Hc. rewrite list_lookup_imap, Hc. cbn.
  eexists; split; [reflexivity|].
  destruct (byIndex !! Z.of_nat i) as [iss|]; [|done].
  unfold mergeLazy. apply Z.eqb_neq in HS. rewrite HS. done.
Qed.

Lemma missingIndices_elem (m : boardModel) (i : nat) :
  i ∈ missingIndices m ↔
  ∃ c, columns m !! i = Some c ∧ allByScope c !! curScope m = None.
Proof.
  unfold missingIndices. rewrite list_elem_of_fmap. split.
  - intros ([j c] & -> & Hin). apply list_elem_of_filter in Hin as [Hnone Hin].
    apply list_elem_of_lookup in Hin as [k Hk].
    rewrite list_lookup_imap in Hk.
    destruct (columns m !! k) as [c'|] eqn:Hc; [|done]. cbn in Hk.
    injection Hk as <- <-. eauto.
  - intros (c & Hc & Hnone). exists (i, c). split; [done|].
    apply list_elem_of_filter. split; [done|].
    apply list_elem_of_lookup. exists i. by rewrite list_lookup_imap, Hc.
Qed.

Lemma markLoading_lookup (idxs : list nat) (cols : list kanbanColumnView) (i : nat)
    (c : kanbanColumnView) :
  cols !! i = Some c →
  foldl (λ cols i, alter (λ c, setIssues c []) i cols) cols idxs !! i =
    Some (if bool_decide (i ∈ idxs) then setIssues c [] else c).
Proof.
  revert cols c. induction idxs as [|j idxs IH]; intros cols c Hc; [done|].
  cbn [foldl]. destruct (decide (i = j)) as [->|Hne].
  - rewrite (IH _ (setIssues c [])).
    + rewrite (bool_decide_eq_true_2 (j ∈ j :: idxs)) by set_solver.
      by destruct (bool_decide (j ∈ idxs)).
    + by rewrite list_lookup_alter_eq, Hc.
  - rewrite (IH _ c).
    + destruct (decide (i ∈ idxs)).
      * by rewrite !bool_decide_eq_true_2 by set_solver.
      * by rewrite !bool_decide_eq_false_2 by set_solver.
    + by rewrite list_lookup_alter_ne.
Qed.

Lemma switchColumn_cached (m : boardModel) (c : kanbanColumnView) data :
  allByScope c !! curScope m = Some data →
  Board.issues (switchColumn m c) = filterAndGroupColumn (title c) data (filterText m) ∧
  allIssues (switchColumn m c) = data.
Proof.
  intros Hd. unfold switchColumn. rewrite Hd.
  destruct (ensureCursorVisible_frame m
    (setIssues (setAllIssues c data)
       (filterAndGroupColumn (title (setAllIssues c data)) data (filterText m))))
    as (_ & _ & -> & -> & _). done.
Qed.

Lemma switchColumn_statusCategory (m : boardModel) (c : kanbanColumnView) :
  statusCategory (switchColumn m c) = statusCategory c.
Proof.
  unfold switchColumn. destruct (allByScope c !! curScope m).
  - by destruct (ensureCursorVisible_frame m
      (setIssues (setAllIssues c l)
         (filterAndGroupColumn (title (setAllIssues c l)) l (filterText m))))
      as (_ & -> & _).
  - by destruct (ensureCursorVisible_frame m c) as (_ & -> & _).
Qed.

Lemma missingIndices_nil (m : boardModel) :
  (∀ c, c ∈ columns m → is_Some (allByScope c !! curScope m)) →
  missingIndices m = [].
Proof.
  intros Hall. destruct (missingIndices m) as [|i l] eqn:Hm; [done|].
  assert (Hi : i ∈ missingIndices m) by (rewrite Hm; set_solver).
  apply missingIndices_elem in Hi as (c & Hc & Hnone).
  apply list_elem_of_lookup_2 in Hc. destruct (Hall c Hc) as [d Hd]. congruence.
Qed.

(** C8: when the key "s" moves the board to a scope for which every
    column has a cache entry, [Update] returns no command, so nothing is
    fetched, and the list each column displays is the cached list of the new
    scope run through [filterAndGroupColumn] with the current filter text. *)
Theorem cycle_scope_cached (m : boardModel) :
  showingHelp m = false → filtering m = false →
  (∀ c, c ∈ columns m → is_Some (allByScope c !! Z.rem (curScope m + 1) 4)) →
  ∃ m', Update m (KeyPress (KeyRunes "s")) = Ok m' CmdNil ∧
    curScope m' = Z.rem (curScope m + 1) 4 ∧
    filterText m' = filterText m ∧
    length (columns m') = length (columns m) ∧
    ∀ (i : nat) (c : kanbanColumnView), columns m !! i = Some c →
      ∃ c' data, columns m' !! i = Some c' ∧
        allByScope c !! curScope m' = Some data ∧
        Board.issues c' = filterAndGroupColumn (title c) data (filterText m').
Proof.
  intros Hhelp Hfil Hall. cbn [Update]. rewrite Hhelp, Hfil.
  unfold updateKey; cbn [keyString String.eqb Ascii.eqb Bool.eqb orb].
  unfold updateCycleScope.
  rewrite missingIndices_nil by exact Hall.
  eexists; split; [reflexivity|]. cbn.
  split; [reflexivity|]. split; [reflexivity|]. split; [apply length_fmap|].
  intros i c Hc. rewrite list_lookup_fmap, Hc. cbn.
  destruct (Hall c (list_elem_of_lookup_2 _ _ _ Hc)) as [data Hd].
  exists (switchColumn (setCurScope m (Z.rem (curScope m + 1) 4)) c), data.
  split; [done|]. split; [done|].
  by apply (switchColumn_cached (setCurScope m (Z.rem (curScope m + 1) 4))).
Qed.

Lemma runFetchScope_calls_aux (fetch : fetcher) (sc : Z)
    (l : list (nat * kanbanColumnView)) acc :
  (foldl (fetchScopeStep fetch sc) acc l).1 =
    acc.1 ++ ((λ p : nat * kanbanColumnView, (p.1, statusCategory p.2, sc)) <$> l).
Proof.
  revert acc. induction l as [|p l IH]; intros acc; cbn [foldl fmap list_fmap].
  - by rewrite app_nil_r.
  - rewrite IH. unfold fetchScopeStep.
    destruct (fetch (statusCategory p.2) sc 100); cbn [fst]; by rewrite <- app_assoc.
Qed.

Lemma runFetchScope_calls (fetch : fetcher) (sc : Z) (cols : list kanbanColumnView) :
  (runFetchScope fetch cols sc).1 = imap (λ i c, (i, statusCategory c, sc)) cols.
Proof.
  unfold runFetchScope. cbn [fst]. rewrite runFetchScope_calls_aux. cbn [fst app].
  apply list_eq. intros i. rewrite list_lookup_fmap, !list_lookup_imap.
  by destruct (cols !! i).
Qed.

(** C4 (amended): when the key "s" moves the board to a scope for which
    at least one column has no cache entry, the columns without an entry
    display the empty list (the loading placeholder), the columns with an
    entry display their cached list filtered and grouped, and the command
    returned fetches the new scope for every column of the board, the
    cached ones included. *)
Theorem cycle_scope_missing (m : boardModel) :
  showingHelp m = false → filtering m = false →
  (∃ c, c ∈ columns m ∧ allByScope c !! Z.rem (curScope m + 1) 4 = None) →
  ∃ m' colsSnapshot,
    Update m (KeyPress (KeyRunes "s"))
      = Ok m' (CmdFetchScope colsSnapshot (Z.rem (curScope m + 1) 4)) ∧
    curScope m' = Z.rem (curScope m + 1) 4 ∧
    (∀ (i : nat) (c : kanbanColumnView), columns m !! i = Some c →
       ∃ c', columns m' !! i = Some c' ∧
         (allByScope c !! curScope m' = None → Board.issues c' = []) ∧
         (∀ data, allByScope c !! curScope m' = Some data →
            Board.issues c' = filterAndGroupColumn (title c) data (filterText m))) ∧
    (∀ (fetch : fetcher) (i : nat) (c : kanbanColumnView), columns m !! i = Some c →
       (i, statusCategory c, curScope m') ∈ (runFetchScope fetch colsSnapshot (curScope m')).1).
Proof.
  intros Hhelp Hfil (c0 & Hc0 & Hnone0). cbn [Update]. rewrite Hhelp, Hfil.
  unfold updateKey; cbn [keyString String.eqb Ascii.eqb Bool.eqb orb].
  unfold updateCycleScope.
  set (m1 := setCurScope m (Z.rem (curScope m + 1) 4)).
  assert (Hmiss : ∀ i, i ∈ missingIndices m1 ↔
            ∃ c, columns m !! i = Some c ∧ allByScope c !! Z.rem (curScope m + 1) 4 = None).
  { intros i. apply (missingIndices_elem m1). }
  assert (Hne : missingIndices m1 ≠ []).
  { apply list_elem_of_lookup in Hc0 as [i Hi].
    assert (Hin : i ∈ missingIndices m1) by (apply Hmiss; eauto).
    intros Hnil. rewrite Hnil in Hin. set_solver. }
  destruct (missingIndices m1) as [|j miss] eqn:Hm; [done|].
  rewrite <- Hm in *. clear Hm Hne j miss.
  do 2 eexists. split; [reflexivity|]. cbn [curScope columns setColumns m1 setCurScope].
  split; [reflexivity|]. split.
  - intros i c Hc.
    erewrite markLoading_lookup by (rewrite list_lookup_fmap, Hc; reflexivity).
    eexists; split; [reflexivity|]. split.
    + intros Hnone. rewrite bool_decide_eq_true_2 by (apply Hmiss; eauto). done.
    + intros data Hd. rewrite bool_decide_eq_false_2.
      * by apply (switchColumn_cached m1).
      * intros (c' & Hc' & Hn)%Hmiss. congruence.
  - intros fetch i c Hc. rewrite runFetchScope_calls.
    apply list_elem_of_lookup. exists i.
    rewrite list_lookup_imap, list_lookup_fmap, Hc. cbn.
    by rewrite switchColumn_statusCategory.
Qed.

End Update.

Lemma lazy_merge_other_scope_frame_witness :
  2 ≠ curScope partlyCached ∧
  ∃ m', Update partlyCached (lazyBatchLoadedMsg 2 (<[0 := [ticketB]]> ∅)) = Ok m' CmdNil ∧
        columns m' !! 0%nat =
          Some (Column "To Do" "To Do" [ticketA] [ticketA]
                  (<[2 := [ticketB]]> (<[1 := [ticketB]]> (<[0 := [ticketA]]> ∅))) 0 0).
Proof.
  assert (Hne : 2 ≠ curScope partlyCached) by (cbn; lia).
  split; [exact Hne|].
  destruct (lazy_merge_other_scope_frame partlyCached 2 (<[0 := [ticketB]]> ∅) Hne)
    as (m' & Hup & _).
  exists m'. split; [exact Hup|].
  cbn in Hup. injection Hup as <-. reflexivity.
Defined.

Lemma cycle_scope_cached_witness :
  showingHelp fullyCached = false ∧ filtering fullyCached = false ∧
  (∀ c, c ∈ columns fullyCached →
        is_Some (allByScope c !! Z.rem (curScope fullyCached + 1) 4)) ∧
  ∃ m', Update fullyCached (KeyPress (KeyRunes "s")) = Ok m' CmdNil ∧
        curScope m' = 1.
Proof.
  assert (Hall : ∀ c, c ∈ columns fullyCached →
            is_Some (allByScope c !! Z.rem (curScope fullyCached + 1) 4)).
  { intros c Hc. cbn in Hc. rewrite !elem_of_cons, elem_of_nil in Hc.
    destruct Hc as [-> | [-> | [-> | []]]]; cbn; eexists; reflexivity. }
  split; [reflexivity|]. split; [reflexivity|]. split; [exact Hall|].
  destruct (cycle_scope_cached fullyCached eq_refl eq_refl Hall) as (m' & Hup & Hsc & _).
  exists m'. split; [exact Hup | exact Hsc].
Defined.

(** C4, as stated, fails: on a board whose first column has a cache entry
    for the next scope and whose other columns have none, the command
    returned for the key "s" calls [fetchColumnIssues] for the first column
    all the same. *)
Lemma cycle_scope_refetches_cached_column :
  ∃ m' colsSnapshot c,
    Update partlyCached (KeyPress (KeyRunes "s")) = Ok m' (CmdFetchScope colsSnapshot 1) ∧
    columns partlyCached !! 0%nat = Some c ∧
    is_Some (allByScope c !! 1) ∧
    (0%nat, statusCategory c, 1) ∈ (runFetchScope fetchNothing colsSnapshot 1).1.
Proof.
  eexists _, _, _. split; [reflexivity|]. split; [reflexivity|]. split.
  - eexists. reflexivity.
  - apply list_elem_of_here.
Qed.

Lemma cycle_scope_missing_witness :
  showingHelp partlyCached = false ∧ filtering partlyCached = false ∧
  (∃ c, c ∈ columns partlyCached ∧
        allByScope c !! Z.rem (curScope partlyCached + 1) 4 = None) ∧
  ∃ m' colsSnapshot,
    Update partlyCached (KeyPress (KeyRunes "s")) = Ok m' (CmdFetchScope colsSnapshot 1) ∧
    curScope m' = 1.
Proof.
  assert (Hmiss : ∃ c, c ∈ columns partlyCached ∧
            allByScope c !! Z.rem (curScope partlyCached + 1) 4 = None).
  { exists (Column "In Progress" "In Progress" [] [] (<[0 := []]> ∅) 0 0).
    split; [|reflexivity]. cbn. apply list_elem_of_further, list_elem_of_here. }
  split; [reflexivity|]. split; [reflexivity|]. split; [exact Hmiss|].
  destruct (cycle_scope_missing partlyCached eq_refl eq_refl Hmiss)
    as (m' & snap & Hup & Hsc & _).
  exists m', snap. split; [exact Hup | exact Hsc].
Defined.

(** *** The collecting loops of the two loaders *)

Lemma collectLoop_failure (pre post : list arrival) (r : columnResult) (text : string)
    (n : nat) (columns : list kanbanColumnView) (scope : Z) (filter : string) :
  Forall succeeded pre → (length pre < n)%nat →
  Loader.err r = Some (ErrorString text) →
  collectLoop n (pre ++ Received r :: post) columns scope filter = errMsg (ErrorString text).
Proof.
  revert n columns. induction pre as [|a pre IH]; intros n columns Hpre Hn Herr.
  - destruct n; [cbn in Hn; lia|]. cbn. by rewrite Herr.
  - apply Forall_cons in Hpre as [(r' & -> & Hr') Hpre].
    destruct n; [cbn in Hn; lia|]. cbn. rewrite Hr'.
    apply IH; [done | cbn in Hn; lia | done].
Qed.

Lemma collectScopeLoop_lookup (n : nat) (arrivals : list arrival)
    (byIdx : gmap Z (list JiraIssue)) (k : Z) :
  is_Some (collectScopeLoop n arrivals byIdx !! k) →
  is_Some (byIdx !! k) ∨
  ∃ r, Received r ∈ arrivals ∧ Loader.err r = None ∧ Z.of_nat (Loader.index r) = k.
Proof.
  revert arrivals byIdx. induction n as [|n IH]; intros arrivals byIdx Hk; [by left|].
  destruct arrivals as [|[r|] rest]; cbn in Hk; [by left| |by left].
  destruct (Loader.err r) eqn:Herr.
  - destruct (IH _ _ Hk) as [?|(r' & Hin & ? & ?)]; [by left|].
    right. exists r'. split; [by right|done].
  - destruct (IH _ _ Hk) as [Hs|(r' & Hin & ? & ?)].
    + destruct (decide (Z.of_nat (Loader.index r) = k)) as [Heq|Hne].
      * right. exists r. split; [by left|done].
      * left. by rewrite lookup_insert_ne in Hs.
    + right. exists r'. split; [by right|done].
Qed.

(** C9: let one fetch task fail with an error that is not a context
    error, its result reaching the collecting loop after results of tasks
    that succeeded, and let no other result be for the same column.  Then
    [loadColumnsConcurrently] returns the error message carrying that
    error, while [loadScopeConcurrently] returns its ordinary message, a
    [lazyBatchLoadedMsg], in whose map the index of the failed column is
    absent. *)
Theorem one_failure_primary_vs_prefetch (columns : list kanbanColumnView) (scope : Z)
    (filter : string) (pre post : list arrival) (r : columnResult) (text : string) :
  Loader.err r = Some (ErrorString text) →
  Forall succeeded pre → (length pre < length columns)%nat →
  (∀ r', Received r' ∈ pre ++ post → Loader.index r' ≠ Loader.index r) →
  loadColumnsConcurrently columns scope filter (pre ++ Received r :: post)
    = errMsg (ErrorString text) ∧
  ∃ byIdx, loadScopeConcurrently columns scope (pre ++ Received r :: post)
             = lazyBatchLoadedMsg scope byIdx ∧
           byIdx !! Z.of_nat (Loader.index r) = None.
Proof.
  intros Herr Hpre Hlen Hother. split.
  - by apply collectLoop_failure.
  - eexists. split; [reflexivity|].
    apply eq_None_not_Some. intros Hsome.
    apply collectScopeLoop_lookup in Hsome as [Hs|(r' & Hin & Hok & Hidx)].
    + rewrite lookup_empty in Hs. by destruct Hs.
    + apply Nat2Z.inj in Hidx.
      apply elem_of_app in Hin as [Hin|Hin].
      * apply (Hother r'); [set_solver|done].
      * apply elem_of_cons in Hin as [Heq|Hin].
        -- injection Heq as ->. congruence.
        -- apply (Hother r'); [set_solver|done].
Qed.

Lemma one_failure_primary_vs_prefetch_witness :
  Loader.err secondFails = Some (ErrorString "jira_connection") ∧
  Forall succeeded [firstOk] ∧
  (length [firstOk] < length (columns partlyCached))%nat ∧
  (∀ r', Received r' ∈ [firstOk] ++ [thirdOk] → Loader.index r' ≠ Loader.index secondFails) ∧
  loadColumnsConcurrently (columns partlyCached) 1 "" ([firstOk] ++ Received secondFails :: [thirdOk])
    = errMsg (ErrorString "jira_connection") ∧
  ∃ byIdx, loadScopeConcurrently (columns partlyCached) 1
             ([firstOk] ++ Received secondFails :: [thirdOk])
             = lazyBatchLoadedMsg 1 byIdx ∧
           byIdx !! Z.of_nat (Loader.index secondFails) = None.
Proof.
  assert (Hpre : Forall succeeded [firstOk]).
  { apply Forall_cons_2; [|apply Forall_nil_2]. eexists. split; reflexivity. }
  assert (Hlen : (length [firstOk] < length (columns partlyCached))%nat) by (cbn; lia).
  assert (Hother : ∀ r', Received r' ∈ [firstOk] ++ [thirdOk] →
            Loader.index r' ≠ Loader.index secondFails).
  { intros r' Hin. cbn in Hin. rewrite !elem_of_cons, elem_of_nil in Hin.
    destruct Hin as [Heq | [Heq | []]]; injection Heq as ->; cbn; lia. }
  split; [reflexivity|]. split; [exact Hpre|]. split; [exact Hlen|].
  split; [exact Hother|].
  exact (one_failure_primary_vs_prefetch (columns partlyCached) 1 ""
           [firstOk] [thirdOk] secondFails "jira_connection" eq_refl Hpre Hlen Hother).
Defined.

(** *** Filtering: scoring and the exchange sort *)

Lemma scoreAll_aux (nf : string) (all : list JiraIssue) (acc : list scoredIssue) :
  foldl (Filter.scoreStep nf) acc all =
    acc ++ ((λ it, Scored it (bestScore nf it)) <$> filter (λ it, 0 < bestScore nf it) all).
Proof.
  revert acc. induction all as [|it all IH]; intros acc; cbn [foldl].
  - by rewrite filter_nil, app_nil_r.
  - rewrite IH, filter_cons. unfold Filter.scoreStep.
    destruct (Z.ltb_spec 0 (bestScore nf it)).
    + rewrite decide_True by done. cbn. by rewrite <- app_assoc.
    + rewrite decide_False by lia. done.
Qed.

Lemma scoreAll_survivors (nf : string) (all : list JiraIssue) :
  scoreAll nf all =
    (λ it, Scored it (bestScore nf it)) <$> filter (λ it, 0 < bestScore nf it) all.
Proof. unfold scoreAll. by rewrite scoreAll_aux. Qed.

Lemma swapIfGreater_length i j l : length (swapIfGreater i j l) = length l.
Proof.
  unfold swapIfGreater. repeat case_match; by rewrite ?length_insert.
Qed.

Lemma swapIfGreater_perm i j l : swapIfGreater i j l ≡ₚ l.
Proof.
  unfold swapIfGreater. repeat case_match; try done.
  by apply Permutation_insert_swap.
Qed.

Lemma innerLoop_length n i j l : length (innerLoop n i j l) = length l.
Proof.
  revert j l. induction n as [|n IH]; intros j l; cbn; [done|].
  by rewrite IH, swapIfGreater_length.
Qed.

Lemma innerLoop_perm n i j l : innerLoop n i j l ≡ₚ l.
Proof.
  revert j l. induction n as [|n IH]; intros j l; cbn; [done|].
  by rewrite IH, swapIfGreater_perm.
Qed.

Lemma outerLoop_perm n i l : outerLoop n i l ≡ₚ l.
Proof.
  revert i l. induction n as [|n IH]; intros i l; cbn; [done|].
  by rewrite IH, innerLoop_perm.
Qed.

Lemma sortByScore_perm l : sortByScore l ≡ₚ l.
Proof. apply outerLoop_perm. Qed.

Lemma swapIfGreater_settled i j k l :
  (k ≤ i)%nat → (i < j)%nat → settled k l → settled k (swapIfGreater i j l).
Proof.
  intros Hki Hij Hs. unfold swapIfGreater.
  destruct (l !! i) as [si|] eqn:Hi; [|done].
  destruct (l !! j) as [sj|] eqn:Hj; [|done].
  destruct (Z.ltb_spec (score si) (score sj)); [|done].
  intros a b sa sb Hab Hak Ha Hb.
  assert (Hlen_i : (i < length l)%nat) by (by eapply lookup_lt_Some).
  assert (Hlen_j : (j < length l)%nat) by (by eapply lookup_lt_Some).
  rewrite list_lookup_insert_ne in Ha by lia.
  rewrite list_lookup_insert_ne in Ha by lia.
  destruct (decide (b = j)) as [->|Hbj].
  - rewrite list_lookup_insert_eq in Hb by (rewrite length_insert; lia).
    injection Hb as <-. apply (Hs a i sa si); [lia|done|done|done].
  - rewrite list_lookup_insert_ne in Hb by done.
    destruct (decide (b = i)) as [->|Hbi].
    + rewrite list_lookup_insert_eq in Hb by lia. injection Hb as <-.
      apply (Hs a j sa sj); [lia|done|done|done].
    + rewrite list_lookup_insert_ne in Hb by done. apply (Hs a b sa sb); [lia|done|done|done].
Qed.

Lemma swapIfGreater_leads i j l :
  (i < j)%nat → (j < length l)%nat → leads i j l → leads i (S j) (swapIfGreater i j l).
Proof.
  intros Hij Hjl Hl. unfold swapIfGreater.
  destruct (lookup_lt_is_Some_2 l i) as [si Hi]; [lia|].
  destruct (lookup_lt_is_Some_2 l j) as [sj Hj]; [lia|].
  rewrite Hi, Hj.
  destruct (Z.ltb_spec (score si) (score sj)).
  - intros b si' sb Hib Hbj Hi' Hb.
    rewrite list_lookup_insert_ne in Hi' by lia.
    rewrite list_lookup_insert_eq in Hi' by lia. injection Hi' as <-.
    destruct (decide (b = j)) as [->|Hne].
    + rewrite list_lookup_insert_eq in Hb by (rewrite length_insert; lia).
      injection Hb as <-. lia.
    + rewrite !list_lookup_insert_ne in Hb by lia.
      pose proof (Hl b si sb Hib ltac:(lia) Hi Hb). lia.
  - intros b si' sb Hib Hbj Hi' Hb. rewrite Hi in Hi'. injection Hi' as <-.
    destruct (decide (b = j)) as [->|Hne].
    + rewrite Hj in Hb. injection Hb as <-. lia.
    + apply (Hl b si sb); [lia|lia|done|done].
Qed.

Lemma innerLoop_invariant n i j l :
  (i < j)%nat → (j + n = length l)%nat → settled i l → leads i j l →
  settled i (innerLoop n i j l) ∧ leads i (length l) (innerLoop n i j l).
Proof.
  revert j l. induction n as [|n IH]; intros j l Hij Hn Hs Hl; cbn [innerLoop].
  - split; [done|]. by replace (length l) with j by lia.
  - rewrite <- (swapIfGreater_length i j l). apply IH.
    + lia.
    + rewrite swapIfGreater_length. lia.
    + by apply swapIfGreater_settled.
    + apply swapIfGreater_leads; [done|lia|done].
Qed.

Lemma settled_step i l :
  settled i l → leads i (length l) l → settled (S i) l.
Proof.
  intros Hs Hl a b sa sb Hab Hai Ha Hb.
  destruct (decide (a = i)) as [->|Hne].
  - apply (Hl b sa sb); [done| by eapply lookup_lt_Some |done|done].
  - apply (Hs a b sa sb); [done|lia|done|done].
Qed.

Lemma outerLoop_settled n i l :
  (i + n = length l - 1)%nat → settled i l → settled (i + n) (outerLoop n i l).
Proof.
  revert i l. induction n as [|n IH]; intros i l Hn Hs; cbn [outerLoop].
  - by rewrite Nat.add_0_r.
  - destruct (innerLoop_invariant (length l - S i) i (S i) l) as [Hs' Hl'].
    + lia.
    + lia.
    + done.
    + intros b si sb Hib Hbi. lia.
    + replace (i + S n)%nat with (S i + n)%nat by lia. apply IH.
      * rewrite innerLoop_length. lia.
      * apply settled_step; [done|]. by rewrite innerLoop_length.
Qed.

Lemma sortByScore_sorted l : sortedByScore (sortByScore l).
Proof.
  unfold sortByScore.
  pose proof (outerLoop_settled (length l - 1) 0 l) as Hs. cbn [Nat.add] in Hs.
  specialize (Hs eq_refl).
  intros a b sa sb Hab Ha Hb.
  apply (Hs ltac:(intros ? ? ? ? ? ?; lia) a b sa sb); [done| |done|done].
  apply lookup_lt_Some in Hb.
  assert (Hlen : length (outerLoop (length l - 1) 0 l) = length l).
  { apply Permutation_length, outerLoop_perm. }
  lia.
Qed.

(** C3 (amended): for every raw list and every non-empty filter text,
    [filterAndGroupColumn] hands to the grouping step a list that holds
    exactly the tickets whose best fuzzy score over normalized key and
    normalized summary is positive (it is a permutation of them, each with
    that score) and that is ordered by descending score.  Nothing is said
    about the order of tickets with equal scores. *)
Theorem filter_keeps_positive_sorted_descending (title : string) (all : list JiraIssue)
    (filter_text : string) :
  filter_text ≠ "" →
  ∃ scored,
    filterAndGroupColumn title all filter_text
      = reorderAndGroupIssues title (issue <$> scored) ∧
    scored ≡ₚ (λ it, Scored it (bestScore (NormalizeSearchText filter_text) it)) <$>
               filter (λ it, 0 < bestScore (NormalizeSearchText filter_text) it) all ∧
    sortedByScore scored.
Proof.
  intros Hne. unfold filterAndGroupColumn.
  apply String.eqb_neq in Hne. rewrite Hne.
  eexists. split; [reflexivity|]. split.
  - rewrite sortByScore_perm. by rewrite scoreAll_survivors.
  - apply sortByScore_sorted.
Qed.

Lemma filter_keeps_positive_sorted_descending_witness :
  "bg" ≠ "" ∧
  ∃ scored,
    filterAndGroupColumn "Done" [bug1; bug2; bug3] "bg"
      = reorderAndGroupIssues "Done" (issue <$> scored) ∧
    sortedByScore scored.
Proof.
  assert (Hne : "bg" ≠ "") by discriminate.
  split; [exact Hne|].
  destruct (filter_keeps_positive_sorted_descending "Done" [bug1; bug2; bug3] "bg" Hne)
    as (scored & Heq & _ & Hsorted).
  exists scored. split; [exact Heq | exact Hsorted].
Defined.

(** C3, as stated, fails: [bug1] and [bug2] score the same for the filter
    "bg" and [bug1] comes first in the input, yet the output lists [bug2]
    before [bug1]; the exchange sort is not stable. *)
Lemma filter_sort_not_stable :
  ¬ tiesKeepInputOrder (NormalizeSearchText "bg") [bug1; bug2; bug3]
      (filterAndGroupColumn "Done" [bug1; bug2; bug3] "bg").
Proof.
  assert (Hout : filterAndGroupColumn "Done" [bug1; bug2; bug3] "bg" = [bug3; bug2; bug1])
    by (vm_compute; reflexivity).
  rewrite Hout. intros Hstable.
  destruct (Hstable 0%nat 1%nat bug1 bug2) as (i' & j' & Hlt & Hi & Hj).
  - lia.
  - reflexivity.
  - reflexivity.
  - vm_compute. reflexivity.
  - vm_compute. reflexivity.
  - destruct i' as [|[|[|i']]]; try discriminate Hi.
    destruct j' as [|[|[|j']]]; try discriminate Hj; lia.
Qed.

(** *** Grouping *)

Lemma passStep_notin issues set st it :
  Key it ∉ set → passStep issues set st it = st.
Proof. intros Hn. unfold passStep. by rewrite bool_decide_eq_false_2. Qed.

Lemma passStep_seen issues set st it :
  Key it ∈ st.1 → passStep issues set st it = st.
Proof.
  intros Hs. unfold passStep. destruct (bool_decide (Key it ∈ set)); [|done].
  by rewrite bool_decide_eq_true_2.
Qed.

Lemma passStep_child issues set st it :
  Subtask it = true → ParentKey it ≠ "" → ParentKey it ∈ set →
  passStep issues set st it = st.
Proof.
  intros Hs Hp Hin. unfold passStep.
  destruct (bool_decide (Key it ∈ set)); [|done].
  destruct (bool_decide (Key it ∈ st.1)); [done|]. simpl.
  rewrite Hs, (bool_decide_eq_true_2 _ Hin).
  apply String.eqb_neq in Hp. by rewrite Hp.
Qed.

Lemma passStep_head issues set st it :
  Key it ∈ set → Key it ∉ st.1 →
  Subtask it = false ∨ ParentKey it = "" ∨ ParentKey it ∉ set →
  passStep issues set st it =
    (({[Key it]} ∪ st.1) ∪ list_to_set (Key <$> childrenOf issues it set),
     st.2 ++ it :: childrenOf issues it set).
Proof.
  intros Hin Hseen Hhead. unfold passStep, appendGroup.
  rewrite (bool_decide_eq_true_2 _ Hin), (bool_decide_eq_false_2 _ Hseen). simpl.
  destruct Hhead as [-> | [-> | Hp]]; simpl; [done| |].
  - by rewrite andb_false_r.
  - by rewrite (bool_decide_eq_false_2 _ Hp), andb_false_r.
Qed.

Section Scenario.
Variables A B C : JiraIssue.
Hypothesis A_active : isBacklog A = false.
Hypothesis A_top : Subtask A = false.
Hypothesis B_backlog : isBacklog B = true.
Hypothesis B_top : Subtask B = false.
Hypothesis C_active : isBacklog C = false.
Hypothesis C_sub : Subtask C = true.
Hypothesis C_parent : ParentKey C = Key B.
Hypothesis B_named : Key B ≠ "".
Hypothesis AB : Key A ≠ Key B.
Hypothesis AC : Key A ≠ Key C.
Hypothesis BC : Key B ≠ Key C.

Lemma scenario_sets :
  partitionSets "To Do" [A; B; C]
    = ({[Key B]} ∪ ({[Key C]} ∪ ({[Key A]} ∪ ∅)), ({[Key B]} ∪ ∅) ∖ {[Key B]}).
Proof.
  unfold partitionSets. cbn [String.eqb Ascii.eqb Bool.eqb foldl].
  unfold splitStep. rewrite A_active, B_backlog, C_active. cbn [fst snd].
  assert (Hpresent : Key B ∈ presentKeys [A; B; C]).
  { unfold presentKeys. cbn [fmap list_fmap]. set_solver. }
  assert (Hnamed : String.eqb (Key B) "" = false) by (by apply String.eqb_neq).
  unfold promoteStep at 3. cbn [fst snd].
  rewrite (bool_decide_eq_true_2 (Key A ∈ _)) by set_solver.
  rewrite A_top. cbn [negb andb].
  unfold promoteStep at 2. cbn [fst snd].
  rewrite (bool_decide_eq_false_2 (Key B ∈ _)) by set_solver. cbn [negb].
  unfold promoteStep at 1. cbn [fst snd].
  rewrite (bool_decide_eq_true_2 (Key C ∈ _)) by set_solver.
  rewrite C_sub, C_parent, Hnamed. cbn [negb andb].
  by rewrite (bool_decide_eq_true_2 _ Hpresent).
Qed.

Lemma children_A allow : childrenOf [A;B;C] A allow = [].
Proof.
  unfold childrenOf. rewrite !filter_cons, filter_nil.
  repeat case_decide; try reflexivity; exfalso; naive_solver congruence.
Qed.
Lemma children_B allow : Key C ∈ allow → childrenOf [A;B;C] B allow = [C].
Proof.
  intros HC. unfold childrenOf. rewrite !filter_cons, filter_nil.
  repeat case_decide; try reflexivity; exfalso; naive_solver congruence.
Qed.

(** C1 (amended): in the To Do column, for the three tickets
    [A] (active, no parent), [B] (backlog, no parent) and [C] (active subtask
    of [B]) given in this order, the grouping step returns [A; B; C]: [B] is
    promoted into the active group because its child [C] is active, [C]
    stands right behind [B], and [A], which comes before [B] in the input,
    stays in front. *)
Theorem scenario_promotes_in_input_order : reorderAndGroupIssues "To Do" [A; B; C] = [A; B; C].
Proof.
  unfold reorderAndGroupIssues. rewrite scenario_sets.
  cbn [String.eqb Ascii.eqb Bool.eqb]. unfold runPass. cbn [foldl].
  set (T := {[Key B]} ∪ ({[Key C]} ∪ ({[Key A]} ∪ ∅))).
  set (K := ({[Key B]} ∪ ∅) ∖ {[Key B]}).
  assert (HA : Key A ∈ T) by set_solver.
  assert (HB : Key B ∈ T) by set_solver.
  assert (HC : Key C ∈ T) by set_solver.
  assert (HK : ∀ k, k ∉ K) by set_solver.
  clearbody T K.
  rewrite (passStep_head _ T (∅, []) A); [| done | simpl; set_solver | by left].
  rewrite children_A. cbn [fst snd fmap list_fmap app].
  rewrite (passStep_head _ T _ B); [| done | simpl; set_solver | by left].
  rewrite children_B by done. cbn [fst snd fmap list_fmap app].
  rewrite (passStep_seen _ T _ C) by (simpl; set_solver).
  rewrite !passStep_notin by apply HK. reflexivity.
Qed.
End Scenario.

Lemma scenario_promotes_in_input_order_witness :
  isBacklog ticketA = false ∧ isBacklog ticketB = true ∧ isBacklog ticketC = false ∧
  Subtask ticketC = true ∧ ParentKey ticketC = Key ticketB ∧
  reorderAndGroupIssues "To Do" [ticketA; ticketB; ticketC] = [ticketA; ticketB; ticketC].
Proof.
  repeat (split; [reflexivity|]).
  apply (scenario_promotes_in_input_order ticketA ticketB ticketC);
    first [ reflexivity | discriminate ].
Defined.

(** C1, as stated, fails: for the input order [A; B; C] the output is not
    [B; C; A]. *)
Lemma scenario_output_is_not_BCA :
  reorderAndGroupIssues "To Do" [ticketA; ticketB; ticketC] ≠ [ticketB; ticketC; ticketA].
Proof.
  assert (Hout : reorderAndGroupIssues "To Do" [ticketA; ticketB; ticketC]
                 = [ticketA; ticketB; ticketC]) by (vm_compute; reflexivity).
  rewrite Hout. discriminate.
Qed.

Section Pass.
Variable issues : list JiraIssue.
Variable set : gset string.

Lemma pass_out_extends (l : list JiraIssue) (st : passState) :
  ∃ ext, (foldl (passStep issues set) st l).2 = st.2 ++ ext.
Proof.
  revert st. induction l as [|it l IH]; intros st; cbn [foldl].
  - exists []. by rewrite app_nil_r.
  - destruct (IH (passStep issues set st it)) as [ext ->].
    unfold passStep, appendGroup. repeat case_match; cbn [snd]; eauto.
    eexists. by rewrite <- app_assoc.
Qed.

Lemma elem_of_childrenOf (parent : JiraIssue) (allow : gset string) (c : JiraIssue) :
  c ∈ childrenOf issues parent allow ↔
  c ∈ issues ∧ Subtask c = true ∧ ParentKey c = Key parent ∧ Key c ∈ allow.
Proof. unfold childrenOf. rewrite list_elem_of_filter. naive_solver. Qed.

Lemma pass_seen_bound (l : list JiraIssue) (st : passState) (k : string) :
  k ∈ (foldl (passStep issues set) st l).1 →
  k ∈ st.1 ∨ (∃ it, it ∈ l ∧ Key it = k ∧ k ∈ set) ∨
  (∃ c, c ∈ issues ∧ Subtask c = true ∧ Key c = k ∧ k ∈ set).
Proof.
  revert st. induction l as [|it l IH]; intros st Hk; cbn [foldl] in Hk; [by left|].
  destruct (IH _ Hk) as [Hst | [(it' & Hin & Hkey & Hset) | Hchild]].
  - unfold passStep in Hst. repeat case_match; try (by left).
    cbn [fst] in Hst. apply elem_of_union in Hst as [Hst|Hst].
    + apply elem_of_union in Hst as [Hst|Hst]; [|by left].
      apply elem_of_singleton in Hst as ->.
      right; left. exists it. split; [by left|]. split; [done|].
      match goal with Hb : negb (bool_decide (Key it ∈ set)) = false |- _ =>
        apply negb_false_iff, bool_decide_eq_true_1 in Hb; exact Hb end.
    + apply elem_of_list_to_set, list_elem_of_fmap in Hst as (c & -> & Hc).
      apply elem_of_childrenOf in Hc as (? & ? & ? & ?).
      right; right. by exists c.
  - right; left. exists it'. split; [by right|done].
  - by right; right.
Qed.
End Pass.

Lemma Key_inj_NoDup (issues : list JiraIssue) (x y : JiraIssue) :
  NoDup (Key <$> issues) → x ∈ issues → y ∈ issues → Key x = Key y → x = y.
Proof.
  intros Hnd [i Hi]%list_elem_of_lookup [j Hj]%list_elem_of_lookup Hk.
  assert (i = j) as ->.
  { eapply NoDup_lookup; [exact Hnd| |].
    - by rewrite list_lookup_fmap, Hi.
    - by rewrite list_lookup_fmap, Hj, Hk. }
  congruence.
Qed.

Lemma pass_nests (issues : list JiraIssue) (set : gset string) (st : passState)
    (p s : JiraIssue) :
  NoDup (Key <$> issues) → p ∈ issues → s ∈ issues →
  Subtask p = false → Subtask s = true → ParentKey s = Key p →
  Key p ∈ set → Key s ∈ set → Key p ∉ st.1 →
  nestedUnder (runPass issues set st).2 p s.
Proof.
  intros Hnd Hp Hs Hptop Hssub Hpar Hpset Hsset Hpseen. unfold runPass.
  destruct (list_elem_of_split _ _ Hp) as (pre & post & Hsplit).
  rewrite Hsplit at 2. rewrite foldl_app. cbn [foldl].
  set (st1 := foldl (passStep issues set) st pre).
  assert (Hp1 : Key p ∉ st1.1).
  { intros Hin. apply pass_seen_bound in Hin as [? | [(it & Hit & Hkey & _) | (c & Hc & Hsub & Hkey & _)]].
    - done.
    - rewrite Hsplit, fmap_app, fmap_cons in Hnd.
      apply NoDup_app in Hnd as (_ & Hnd & _).
      apply (Hnd (Key p)); [|by left]. apply list_elem_of_fmap. eauto.
    - assert (c = p) by (by eapply Key_inj_NoDup). congruence. }
  rewrite (passStep_head issues set st1 p Hpset Hp1 (or_introl Hptop)).
  assert (Hchild : s ∈ childrenOf issues p set) by (by apply elem_of_childrenOf).
  destruct (list_elem_of_split _ _ Hchild) as (c1 & c2 & Hc).
  destruct (pass_out_extends issues set post
    (({[Key p]} ∪ st1.1) ∪ list_to_set (Key <$> childrenOf issues p set),
     st1.2 ++ p :: childrenOf issues p set)) as [ext ->].
  cbn [snd]. exists st1.2, c1, (c2 ++ ext). split.
  - rewrite Hc. by simplify_list_eq.
  - apply Forall_forall. intros c Hin.
    assert (c ∈ childrenOf issues p set) as (? & ? & ? & ?)%elem_of_childrenOf
      by (rewrite Hc; set_solver).
    done.
Qed.

Lemma nestedUnder_app (out ext : list JiraIssue) (p s : JiraIssue) :
  nestedUnder out p s → nestedUnder (out ++ ext) p s.
Proof.
  intros (l1 & mid & l2 & -> & Hmid). exists l1, mid, (l2 ++ ext).
  split; [|done]. by simplify_list_eq.
Qed.

Lemma split_top (l : list JiraIssue) (acc : sets) (k : string) :
  k ∈ (foldl splitStep acc l).1 ↔
  k ∈ acc.1 ∨ ∃ it, it ∈ l ∧ Key it = k ∧ isBacklog it = false.
Proof.
  revert acc. induction l as [|it l IH]; intros acc; cbn [foldl].
  - split; [by left|]. intros [?|(it & Hin & _)]; [done|]. by apply elem_of_nil in Hin.
  - rewrite IH. unfold splitStep. destruct (isBacklog it) eqn:Hb; cbn [fst].
    + split; [intros [?|(it' & ? & ? & ?)]; [by left|]; right; exists it'; set_solver|].
      intros [?|(it' & [->|?]%elem_of_cons & ? & ?)]; [by left|congruence|right; eauto].
    + rewrite elem_of_union, elem_of_singleton.
      split.
      * intros [[->|?]|(it' & ? & ? & ?)]; [right; exists it; set_solver|by left|].
        right; exists it'; set_solver.
      * intros [?|(it' & [->|?]%elem_of_cons & ? & ?)]; [by left; right|by left; left|].
        right; eauto.
Qed.

Lemma split_backlog (l : list JiraIssue) (acc : sets) (k : string) :
  k ∈ (foldl splitStep acc l).2 ↔
  k ∈ acc.2 ∨ ∃ it, it ∈ l ∧ Key it = k ∧ isBacklog it = true.
Proof.
  revert acc. induction l as [|it l IH]; intros acc; cbn [foldl].
  - split; [by left|]. intros [?|(it & Hin & _)]; [done|]. by apply elem_of_nil in Hin.
  - rewrite IH. unfold splitStep. destruct (isBacklog it) eqn:Hb; cbn [snd].
    + rewrite elem_of_union, elem_of_singleton.
      split.
      * intros [[->|?]|(it' & ? & ? & ?)]; [right; exists it; set_solver|by left|].
        right; exists it'; set_solver.
      * intros [?|(it' & [->|?]%elem_of_cons & ? & ?)]; [by left; right|by left; left|].
        right; eauto.
    + split; [intros [?|(it' & ? & ? & ?)]; [by left|]; right; exists it'; set_solver|].
      intros [?|(it' & [->|?]%elem_of_cons & ? & ?)]; [by left|congruence|right; eauto].
Qed.

Lemma promoteStep_spec (present : gset string) (acc : sets) (it : JiraIssue) :
  acc.1 ⊆ (promoteStep present acc it).1 ∧
  (acc.1 ## acc.2 → (promoteStep present acc it).1 ## (promoteStep present acc it).2).
Proof.
  unfold promoteStep. repeat case_match; cbn [fst snd]; set_solver.
Qed.

Lemma promote_mono (present : gset string) (l : list JiraIssue) (acc : sets) :
  acc.1 ⊆ (foldl (promoteStep present) acc l).1.
Proof.
  revert acc. induction l as [|it l IH]; intros acc; cbn [foldl]; [done|].
  etrans; [apply (promoteStep_spec present acc it)|apply IH].
Qed.

Lemma promote_disjoint (present : gset string) (l : list JiraIssue) (acc : sets) :
  acc.1 ## acc.2 →
  (foldl (promoteStep present) acc l).1 ## (foldl (promoteStep present) acc l).2.
Proof.
  revert acc. induction l as [|it l IH]; intros acc Hd; cbn [foldl]; [done|].
  apply IH. by apply promoteStep_spec.
Qed.

Lemma promote_parent (present : gset string) (l : list JiraIssue) (acc : sets)
    (s : JiraIssue) :
  s ∈ l → Key s ∈ acc.1 → Subtask s = true → ParentKey s ≠ "" →
  ParentKey s ∈ present →
  ParentKey s ∈ (foldl (promoteStep present) acc l).1.
Proof.
  revert acc. induction l as [|it l IH]; intros acc Hin Hs Hsub Hpar Hpres;
    [by apply elem_of_nil in Hin|].
  cbn [foldl]. apply elem_of_cons in Hin as [<-|Hin].
  - apply promote_mono. unfold promoteStep.
    rewrite (bool_decide_eq_true_2 _ Hs), Hsub, (bool_decide_eq_true_2 _ Hpres).
    apply String.eqb_neq in Hpar. rewrite Hpar. cbn. set_solver.
  - apply IH; try done. by apply (promoteStep_spec present acc it).
Qed.

Lemma elem_of_presentKeys (issues : list JiraIssue) (it : JiraIssue) :
  it ∈ issues → Key it ∈ presentKeys issues.
Proof.
  intros Hin. unfold presentKeys. apply elem_of_list_to_set, list_elem_of_fmap. eauto.
Qed.

Lemma partitionSets_disjoint (columnTitle : string) (issues : list JiraIssue) :
  NoDup (Key <$> issues) →
  (partitionSets columnTitle issues).1 ## (partitionSets columnTitle issues).2.
Proof.
  intros Hnd. unfold partitionSets. destruct (String.eqb columnTitle "To Do").
  - apply promote_disjoint. intros k Ht Hb.
    apply split_top in Ht as [Ht|(a & Ha & Hka & Hna)]; [set_solver|].
    apply split_backlog in Hb as [Hb|(b & Hb & Hkb & Hnb)]; [set_solver|].
    assert (a = b) by (eapply Key_inj_NoDup; [done..|congruence]). congruence.
  - cbn. set_solver.
Qed.

Lemma active_subtask_sameGroup (columnTitle : string) (issues : list JiraIssue)
    (p s : JiraIssue) :
  p ∈ issues → s ∈ issues → Subtask s = true → ParentKey s = Key p →
  isBacklog s = false → ParentKey s ≠ "" →
  sameGroup columnTitle issues p s.
Proof.
  intros Hp Hs Hsub Hpar Hact Hne. left. unfold partitionSets.
  destruct (String.eqb columnTitle "To Do"); cbn [fst].
  - assert (Hs0 : Key s ∈ (foldl splitStep (∅, ∅) issues).1).
    { apply split_top. right. eauto. }
    split.
    + rewrite <- Hpar. apply promote_parent; try done.
      rewrite Hpar. by apply elem_of_presentKeys.
    + by apply promote_mono.
  - split; by apply elem_of_presentKeys.
Qed.

Lemma other_column_sameGroup (columnTitle : string) (issues : list JiraIssue)
    (p s : JiraIssue) :
  columnTitle ≠ "To Do" → p ∈ issues → s ∈ issues → sameGroup columnTitle issues p s.
Proof.
  intros Hne Hp Hs. left. unfold partitionSets.
  apply String.eqb_neq in Hne. rewrite Hne. cbn [fst].
  split; by apply elem_of_presentKeys.
Qed.

(** C2 (amended): for every column title and every input list with
    pairwise distinct keys, a subtask [s] whose parent [p] is in the list
    and is not itself a subtask stands, in the output of the grouping step,
    in the run of subtasks of [p] that follows [p]: only other subtasks
    of [p] stand between the two.  This holds in every column but To Do;
    in To Do it holds when [s] is not in backlog status (its parent is then
    promoted) and, more generally, whenever the active/backlog partition
    puts [p] and [s] in the same group. *)
Theorem subtask_nested_under_parent (columnTitle : string) (issues : list JiraIssue)
    (p s : JiraIssue) :
  NoDup (Key <$> issues) →
  p ∈ issues → s ∈ issues →
  Subtask s = true → ParentKey s = Key p → Subtask p = false →
  columnTitle ≠ "To Do" ∨ (isBacklog s = false ∧ ParentKey s ≠ "") ∨
    sameGroup columnTitle issues p s →
  nestedUnder (reorderAndGroupIssues columnTitle issues) p s.
Proof.
  intros Hnd Hp Hs Hsub Hpar Hptop Hgroup.
  assert (Hsame : sameGroup columnTitle issues p s).
  { destruct Hgroup as [Hne | [[Hact Hnamed] | Hsame]].
    - by apply other_column_sameGroup.
    - by apply active_subtask_sameGroup.
    - done. }
  clear Hgroup. unfold reorderAndGroupIssues.
  destruct issues as [|it0 rest] eqn:Hiss; [by apply elem_of_nil in Hp|].
  rewrite <- Hiss in *. clear Hiss it0 rest.
  pose proof (partitionSets_disjoint columnTitle issues Hnd) as Hdisj.
  unfold sameGroup in Hsame.
  destruct (partitionSets columnTitle issues) as [topSet backlogSet] eqn:Hsets.
  cbn [fst snd] in *.
  destruct Hsame as [[HpT HsT] | [HpK HsK]].
  - assert (Hfirst : nestedUnder (runPass issues topSet (∅, [])).2 p s).
    { apply pass_nests; done || (cbn; set_solver). }
    destruct (String.eqb columnTitle "To Do"); [|done].
    unfold runPass at 1.
    destruct (pass_out_extends issues backlogSet issues (runPass issues topSet (∅, [])))
      as [ext ->].
    by apply nestedUnder_app.
  - destruct (String.eqb columnTitle "To Do") eqn:Htitle.
    + apply pass_nests; try done.
      intros Hseen. unfold runPass in Hseen.
      apply pass_seen_bound in Hseen as [Hin | [(? & ? & ? & ?) | (? & ? & ? & ? & ?)]];
        [by apply elem_of_empty in Hin | set_solver | set_solver].
    + unfold partitionSets in Hsets. rewrite Htitle in Hsets.
      injection Hsets as <- <-. by apply elem_of_empty in HpK.
Qed.

Lemma subtask_nested_under_parent_witness :
  NoDup (Key <$> [ticketA; ticketB; ticketC]) ∧
  nestedUnder (reorderAndGroupIssues "To Do" [ticketA; ticketB; ticketC]) ticketB ticketC.
Proof.
  assert (Hnd : NoDup (Key <$> [ticketA; ticketB; ticketC])).
  { apply (bool_decide_unpack (NoDup (Key <$> [ticketA; ticketB; ticketC]))).
    vm_compute. exact I. }
  split; [exact Hnd|].
  apply (subtask_nested_under_parent "To Do" [ticketA; ticketB; ticketC] ticketB ticketC Hnd).
  - apply list_elem_of_further, list_elem_of_here.
  - do 2 apply list_elem_of_further. apply list_elem_of_here.
  - reflexivity.
  - reflexivity.
  - reflexivity.
  - right. left. split; [reflexivity | discriminate].
Defined.

(** C2, as stated, fails: in the To Do column a backlog subtask of an
    active parent is listed in the backlog group, behind the unrelated
    active ticket that follows the parent. *)
Lemma backlog_subtask_leaves_parent :
  parentP ∈ [parentP; otherX; subtaskS] ∧ subtaskS ∈ [parentP; otherX; subtaskS] ∧
  Subtask subtaskS = true ∧ ParentKey subtaskS = Key parentP ∧
  ¬ immediatelyAfter (reorderAndGroupIssues "To Do" [parentP; otherX; subtaskS])
      parentP subtaskS.
Proof.
  assert (Hout : reorderAndGroupIssues "To Do" [parentP; otherX; subtaskS]
                 = [parentP; otherX; subtaskS]) by (vm_compute; reflexivity).
  rewrite Hout.
  split; [apply list_elem_of_here|].
  split; [do 2 apply list_elem_of_further; apply list_elem_of_here|].
  split; [reflexivity|]. split; [reflexivity|].
  intros (l1 & l2 & Heq).
  destruct l1 as [|a [|b [|c l1]]]; try discriminate Heq.
  destruct l1; discriminate Heq.
Qed.

(* ================================================================== *)
(** ** Further properties *)
(* ================================================================== *)

Import GoText.

(** *** The fuzzy matcher *)

Lemma chars_cons (c : ascii) (s : string) : chars (String c s) = c :: chars s.
Proof. reflexivity. Qed.

Lemma matchLoop_sublist (target pattern : string) :
  matchLoop target pattern = true ↔ chars pattern `sublist_of` chars target.
Proof.
  revert pattern. induction target as [|t ts IH]; intros [|p ps]; cbn [matchLoop];
    rewrite ?chars_cons.
  - split; [intros _; apply sublist_nil_l | done].
  - split; [done | intros Hs%sublist_nil_r; discriminate].
  - split; [intros _; apply sublist_nil_l | done].
  - destruct (Ascii.eqb_spec p t) as [->|Hne].
    + rewrite IH. split.
      * intros Hs. by apply sublist_skip.
      * intros Hs. apply sublist_cons_r in Hs as [Hs | (l' & Heq & Hs)].
        -- apply sublist_cons_l in Hs as (k1 & k2 & Heq & Hs).
           rewrite Heq. by apply sublist_inserts_l, sublist_cons.
        -- by injection Heq as <-.
    + rewrite IH, chars_cons. split.
      * intros Hs. by apply sublist_cons.
      * intros Hs. apply sublist_cons_r in Hs as [Hs | (l' & Heq & Hs)]; [done|].
        by injection Heq as ->.
Qed.

Lemma chars_nil (s : string) : chars s = [] ↔ s = "".
Proof. by destruct s. Qed.

Lemma ToLower_nil (s : string) : ToLower s = "" ↔ s = "".
Proof. by destruct s. Qed.

(** X1: [FuzzyMatch] is the subsequence test its comment promises, on the
    lowercased strings: it holds exactly when the bytes of the lowercased
    pattern occur in the lowercased target, in the same order. *)
Theorem FuzzyMatch_iff_subsequence (pattern target : string) :
  FuzzyMatch pattern target = true ↔
  chars (ToLower pattern) `sublist_of` chars (ToLower target).
Proof.
  unfold FuzzyMatch.
  destruct (String.eqb_spec pattern "") as [->|Hp].
  { cbn. split; [intros _; apply sublist_nil_l | reflexivity]. }
  destruct (String.eqb_spec target "") as [->|Ht].
  { split; [done|]. cbn. intros Hs%sublist_nil_r.
    apply (proj1 (chars_nil _)), (proj1 (ToLower_nil _)) in Hs. contradiction. }
  apply matchLoop_sublist.
Qed.

Lemma length_ToLower (s : string) : String.length (ToLower s) = String.length s.
Proof. induction s as [|c s IH]; cbn; congruence. Qed.

Lemma lowerRune_idemp (c : ascii) : lowerRune (lowerRune c) = lowerRune c.
Proof. destruct c as [[] [] [] [] [] [] [] []]; reflexivity. Qed.

Lemma ToLower_idemp (s : string) : ToLower (ToLower s) = ToLower s.
Proof. induction s as [|c s IH]; cbn; [done|]. by rewrite lowerRune_idemp, IH. Qed.

(** X2: a score is never above 100, and a pattern that does not match
    scores exactly -1. *)
Theorem FuzzyScore_bounds (pattern target : string) :
  FuzzyScore pattern target ≤ 100 ∧
  (FuzzyMatch pattern target = false → FuzzyScore pattern target = -1).
Proof.
  unfold FuzzyScore. destruct (FuzzyMatch pattern target); cbn [negb];
    [|split; [lia|done]].
  split; [|done].
  destruct (String.eqb_spec pattern "") as [->|Hp]; [lia|].
  assert (Hlen : 0 < len (ToLower pattern)).
  { unfold len. rewrite length_ToLower. destruct pattern; [done|cbn; lia]. }
  set (maxScore := len (ToLower pattern) * 15) in *.
  set (raw := if Contains _ _ then _ else _).
  assert (Hcap : (if (maxScore <? raw)%Z then maxScore else raw) ≤ maxScore)
    by (destruct (Z.ltb_spec maxScore raw); lia).
  revert Hcap. generalize (if (maxScore <? raw)%Z then maxScore else raw). intros x Hx.
  assert (Hmax : 0 < maxScore) by (unfold maxScore; lia).
  etrans; [apply (Z.quot_le_mono _ (100 * maxScore)); lia|].
  rewrite Z.quot_mul by lia. lia.
Qed.










Lemma eqb_ToLower_nil (s : string) : String.eqb (ToLower s) "" = String.eqb s "".
Proof. by destruct s. Qed.

(** X5: matching ignores the case of ASCII letters: the match test, the
    score and the board's filter give the same result when the pattern or
    filter text and the target are replaced by their lowercased forms. *)
Theorem fuzzy_ignores_case (pattern target title : string) (all : list JiraIssue) :
  FuzzyMatch (ToLower pattern) (ToLower target) = FuzzyMatch pattern target ∧
  FuzzyScore (ToLower pattern) (ToLower target) = FuzzyScore pattern target ∧
  filterAndGroupColumn title all (ToLower pattern) = filterAndGroupColumn title all pattern.
Proof.
  assert (Hm : FuzzyMatch (ToLower pattern) (ToLower target) = FuzzyMatch pattern target).
  { unfold FuzzyMatch. by rewrite !eqb_ToLower_nil, !ToLower_idemp. }
  split; [exact Hm|]. split.
  - unfold FuzzyScore. by rewrite Hm, eqb_ToLower_nil, !ToLower_idemp.
  - unfold filterAndGroupColumn, NormalizeSearchText.
    by rewrite eqb_ToLower_nil, ToLower_idemp.
Qed.

(** *** Grouping: what the passes emit *)

Section PassFacts.
Variable issues : list JiraIssue.
Variable set : gset string.

(** Whatever a pass adds to [out] is a ticket of the list whose key is in
    the pass's set. *)
Lemma pass_out_origin (l : list JiraIssue) (st : passState) (x : JiraIssue) :
  l ⊆ issues →
  x ∈ (foldl (passStep issues set) st l).2 →
  x ∈ st.2 ∨ (x ∈ issues ∧ Key x ∈ set).
Proof.
  revert st. induction l as [|it l IH]; intros st Hl Hx; cbn [foldl] in Hx; [by left|].
  assert (Hit : it ∈ issues) by (apply Hl; by left).
  assert (Hl' : l ⊆ issues) by (intros y Hy; apply Hl; by right).
  destruct (IH _ Hl' Hx) as [Hst|Hnew]; [|by right].
  unfold passStep, appendGroup in Hst.
  destruct (bool_decide (Key it ∈ set)) eqn:Hin; cbn [negb] in Hst; [|by left].
  apply bool_decide_eq_true_1 in Hin.
  repeat case_match; try (by left).
  cbn [snd] in Hst. apply elem_of_app in Hst as [Hst|Hst]; [by left|].
  apply elem_of_cons in Hst as [->|Hst]; [by right|].
  apply elem_of_childrenOf in Hst as (? & _ & _ & ?). by right.
Qed.

(** Every key a pass records in [seen] is the key of a ticket in [out]. *)
Lemma pass_seen_emitted (l : list JiraIssue) (st : passState) :
  (∀ k, k ∈ st.1 → ∃ x, x ∈ st.2 ∧ Key x = k) →
  ∀ k, k ∈ (foldl (passStep issues set) st l).1 →
       ∃ x, x ∈ (foldl (passStep issues set) st l).2 ∧ Key x = k.
Proof.
  revert st. induction l as [|it l IH]; intros st Hinv; cbn [foldl]; [done|].
  apply IH. intros k Hk. unfold passStep, appendGroup in *.
  repeat case_match; try (by apply Hinv).
  cbn [fst snd] in *. apply elem_of_union in Hk as [Hk|Hk].
  - apply elem_of_union in Hk as [Hk|Hk].
    + apply elem_of_singleton in Hk as ->. exists it. split; [|done].
      apply elem_of_app. right. by left.
    + destruct (Hinv k Hk) as (x & Hx & Hkey). exists x. split; [|done].
      apply elem_of_app. by left.
  - apply elem_of_list_to_set, list_elem_of_fmap in Hk as (c & -> & Hc).
    exists c. split; [|done]. apply elem_of_app. right. by right.
Qed.
End PassFacts.

Lemma pass_out_mono (issues : list JiraIssue) (set : gset string)
    (l : list JiraIssue) (st : passState) (x : JiraIssue) :
  x ∈ st.2 → x ∈ (foldl (passStep issues set) st l).2.
Proof.
  intros Hx. destruct (pass_out_extends issues set l st) as [ext ->].
  apply elem_of_app. by left.
Qed.

(** A ticket whose key is in the pass's set is emitted by the pass, when
    keys are distinct, parents are top-level tickets, [seen] only holds
    keys of emitted tickets and the ticket's parent, if it is in the set,
    has not been seen before the pass. *)
Lemma pass_emits (issues : list JiraIssue) (set : gset string) (st : passState)
    (t : JiraIssue) :
  NoDup (Key <$> issues) →
  (∀ s p, s ∈ issues → p ∈ issues → Subtask s = true → ParentKey s = Key p →
          Subtask p = false) →
  (∀ k, k ∈ set → k ∈ presentKeys issues) →
  (∀ x, x ∈ st.2 → x ∈ issues) →
  (∀ k, k ∈ st.1 → ∃ x, x ∈ st.2 ∧ Key x = k) →
  (∀ k, k ∈ set → k ∉ st.1) →
  t ∈ issues → Key t ∈ set →
  t ∈ (runPass issues set st).2.
Proof.
  intros Hnd Hlevel Hsub Hout Hseen Hfresh Ht Hkey.
  destruct (decide (Subtask t = true ∧ ParentKey t ≠ "" ∧ ParentKey t ∈ set))
    as [(Hs & Hne & Hpar)|Hhead].
  - assert (Hp : ∃ p, p ∈ issues ∧ Key p = ParentKey t).
    { apply Hsub in Hpar. unfold presentKeys in Hpar.
      apply elem_of_list_to_set, list_elem_of_fmap in Hpar as (p & ? & ?). eauto. }
    destruct Hp as (p & Hp & Hpk).
    assert (Hnest : nestedUnder (runPass issues set st).2 p t).
    { apply pass_nests; try done.
      - by apply (Hlevel t p).
      - by rewrite Hpk.
      - apply Hfresh. by rewrite Hpk. }
    destruct Hnest as (l1 & mid & l2 & -> & _).
    apply elem_of_app. right. apply elem_of_cons. right.
    apply elem_of_app. right. by left.
  - unfold runPass.
    destruct (list_elem_of_split _ _ Ht) as (pre & post & Hsplit).
    rewrite Hsplit at 2. rewrite foldl_app. cbn [foldl].
    set (st1 := foldl (passStep issues set) st pre).
    apply pass_out_mono.
    destruct (decide (Key t ∈ st1.1)) as [Hin|Hnot].
    + rewrite passStep_seen by done.
      destruct (pass_seen_emitted issues set pre st Hseen _ Hin) as (x & Hx & Hxk).
      assert (Hxi : x ∈ issues).
      { destruct (pass_out_origin issues set pre st x) as [?|[? _]]; auto.
        intros y Hy. rewrite Hsplit. apply elem_of_app. by left. }
      by rewrite <- (Key_inj_NoDup issues x t Hnd Hxi Ht Hxk).
    + rewrite passStep_head; try done.
      * cbn [snd]. apply elem_of_app. right. by left.
      * destruct (Subtask t) eqn:Hs; [|by left]. right.
        destruct (decide (ParentKey t = "")) as [?|Hne]; [by left|right].
        intros Hpar. by apply Hhead.
Qed.

Lemma promote_cover (present : gset string) (l : list JiraIssue) (acc : sets) (k : string) :
  k ∈ acc.1 ∪ acc.2 →
  k ∈ (foldl (promoteStep present) acc l).1 ∪ (foldl (promoteStep present) acc l).2.
Proof.
  revert acc. induction l as [|it l IH]; intros acc Hk; cbn [foldl]; [done|].
  apply IH. unfold promoteStep. repeat case_match; cbn [fst snd]; try done.
  destruct (decide (k = ParentKey it)); set_solver.
Qed.

Lemma promote_within (present : gset string) (l : list JiraIssue) (acc : sets) (k : string) :
  k ∈ (foldl (promoteStep present) acc l).1 ∪ (foldl (promoteStep present) acc l).2 →
  k ∈ acc.1 ∪ acc.2 ∪ present.
Proof.
  revert acc. induction l as [|it l IH]; intros acc Hk; cbn [foldl] in Hk; [set_solver|].
  apply IH in Hk. unfold promoteStep in Hk.
  destruct (bool_decide (Key it ∈ acc.1)); cbn [negb] in Hk; [|done].
  destruct (Subtask it && negb (String.eqb (ParentKey it) "")); [|done].
  destruct (bool_decide (ParentKey it ∈ present)) eqn:Hp; [|done].
  apply bool_decide_eq_true_1 in Hp. cbn [fst snd] in Hk. set_solver.
Qed.

Lemma partitionSets_cover (columnTitle : string) (issues : list JiraIssue) (t : JiraIssue) :
  t ∈ issues →
  Key t ∈ (partitionSets columnTitle issues).1 ∪ (partitionSets columnTitle issues).2.
Proof.
  intros Ht. unfold partitionSets. destruct (String.eqb columnTitle "To Do").
  - apply promote_cover. destruct (isBacklog t) eqn:Hb.
    + apply elem_of_union. right. apply split_backlog. right. eauto.
    + apply elem_of_union. left. apply split_top. right. eauto.
  - cbn. apply elem_of_union. left. by apply elem_of_presentKeys.
Qed.

Lemma partitionSets_within (columnTitle : string) (issues : list JiraIssue) (k : string) :
  k ∈ (partitionSets columnTitle issues).1 ∪ (partitionSets columnTitle issues).2 →
  k ∈ presentKeys issues.
Proof.
  unfold partitionSets. destruct (String.eqb columnTitle "To Do"); [|cbn; set_solver].
  intros Hk. apply promote_within in Hk.
  apply elem_of_union in Hk as [Hk|Hk]; [|done].
  apply elem_of_union in Hk as [Hk|Hk].
  - apply split_top in Hk as [Hk|(it & ? & <- & _)]; [set_solver|].
    by apply elem_of_presentKeys.
  - apply split_backlog in Hk as [Hk|(it & ? & <- & _)]; [set_solver|].
    by apply elem_of_presentKeys.
Qed.

Lemma pass_seen_within (issues : list JiraIssue) (set : gset string) (k : string) :
  k ∈ (runPass issues set (∅, [])).1 → k ∈ set.
Proof.
  unfold runPass. intros Hk.
  apply pass_seen_bound in Hk as [Hk | [(? & ? & ? & ?) | (? & ? & ? & ? & ?)]];
    [set_solver | done | done].
Qed.

(** X6: the grouping step never invents a ticket: whatever it returns is a
    ticket of the list it was given. *)
Theorem grouping_returns_input_tickets (columnTitle : string) (issues : list JiraIssue)
    (t : JiraIssue) :
  t ∈ reorderAndGroupIssues columnTitle issues → t ∈ issues.
Proof.
  unfold reorderAndGroupIssues. destruct issues as [|it0 rest] eqn:Hiss; [done|].
  rewrite <- Hiss. clear Hiss it0 rest.
  destruct (partitionSets columnTitle issues) as [topSet backlogSet].
  assert (Hfirst : ∀ x, x ∈ (runPass issues topSet (∅, [])).2 → x ∈ issues).
  { intros x Hx. apply pass_out_origin in Hx as [Hx|[Hx _]]; [|done|done].
    by apply elem_of_nil in Hx. }
  destruct (String.eqb columnTitle "To Do"); [|apply Hfirst].
  intros Ht. apply pass_out_origin in Ht as [Ht|[Ht _]]; [by apply Hfirst|done|done].
Qed.

Lemma grouping_returns_input_tickets_witness :
  ticketC ∈ reorderAndGroupIssues "To Do" [ticketA; ticketB; ticketC] ∧
  ticketC ∈ [ticketA; ticketB; ticketC].
Proof.
  assert (Hin : ticketC ∈ reorderAndGroupIssues "To Do" [ticketA; ticketB; ticketC]).
  { vm_compute reorderAndGroupIssues.
    do 2 apply list_elem_of_further. apply list_elem_of_here. }
  split; [exact Hin|].
  exact (grouping_returns_input_tickets "To Do" [ticketA; ticketB; ticketC] ticketC Hin).
Defined.

(** X7: when the keys of the list are pairwise distinct and no ticket that
    is named as a parent is itself a subtask, the grouping step loses no
    ticket: every ticket of the input is in the output, in every column. *)
Theorem grouping_loses_no_ticket (columnTitle : string) (issues : list JiraIssue)
    (t : JiraIssue) :
  NoDup (Key <$> issues) →
  (∀ s p, s ∈ issues → p ∈ issues → Subtask s = true → ParentKey s = Key p →
          Subtask p = false) →
  t ∈ issues → t ∈ reorderAndGroupIssues columnTitle issues.
Proof.
  intros Hnd Hlevel Ht. unfold reorderAndGroupIssues.
  destruct issues as [|it0 rest] eqn:Hiss; [done|].
  rewrite <- Hiss in *. clear Hiss it0 rest.
  pose proof (partitionSets_cover columnTitle issues t Ht) as Hcover.
  pose proof (partitionSets_within columnTitle issues) as Hwithin.
  pose proof (partitionSets_disjoint columnTitle issues Hnd) as Hdisj.
  assert (Htitle : String.eqb columnTitle "To Do" = false →
                   (partitionSets columnTitle issues).2 = ∅).
  { intros Hne. unfold partitionSets. by rewrite Hne. }
  destruct (partitionSets columnTitle issues) as [topSet backlogSet].
  cbn [fst snd] in *.
  assert (Hfirst : Key t ∈ topSet → t ∈ (runPass issues topSet (∅, [])).2).
  { intros Hk.
    apply pass_emits;
      first [ done | intros k Hin; apply Hwithin; set_solver | cbn; set_solver ]. }
  destruct (String.eqb columnTitle "To Do") eqn:Htodo.
  - apply elem_of_union in Hcover as [Hk|Hk].
    + unfold runPass at 1. by apply pass_out_mono, Hfirst.
    + apply pass_emits; try done.
      * intros k Hin. apply Hwithin. set_solver.
      * intros x Hx. unfold runPass in Hx.
        apply pass_out_origin in Hx as [Hx|[Hx _]]; [|done|done].
        by apply elem_of_nil in Hx.
      * intros k Hin. unfold runPass. apply pass_seen_emitted; [|done].
        intros k' Hk'. by apply elem_of_empty in Hk'.
      * intros k Hin Hseen. apply pass_seen_within in Hseen. set_solver.
  - rewrite (Htitle eq_refl) in Hcover. apply Hfirst. set_solver.
Qed.

Lemma grouping_loses_no_ticket_witness :
  NoDup (Key <$> [parentP; otherX; subtaskS]) ∧
  subtaskS ∈ reorderAndGroupIssues "To Do" [parentP; otherX; subtaskS].
Proof.
  assert (Hnd : NoDup (Key <$> [parentP; otherX; subtaskS])).
  { apply (bool_decide_unpack (NoDup (Key <$> [parentP; otherX; subtaskS]))).
    vm_compute. exact I. }
  split; [exact Hnd|].
  apply (grouping_loses_no_ticket "To Do" [parentP; otherX; subtaskS] subtaskS Hnd).
  - intros s p Hs Hp Hsub Hpar.
    rewrite !elem_of_cons, elem_of_nil in Hs, Hp.
    destruct Hs as [-> | [-> | [-> | []]]]; try discriminate Hsub.
    destruct Hp as [-> | [-> | [-> | []]]]; try discriminate Hpar. reflexivity.
  - do 2 apply list_elem_of_further. apply list_elem_of_here.
Defined.

Lemma pass_appends (issues : list JiraIssue) (set : gset string) (l : list JiraIssue)
    (st : passState) :
  l ⊆ issues →
  ∃ ext, (foldl (passStep issues set) st l).2 = st.2 ++ ext ∧
         Forall (λ x, x ∈ issues ∧ Key x ∈ set) ext.
Proof.
  revert st. induction l as [|it l IH]; intros st Hl; cbn [foldl].
  - exists []. split; [by rewrite app_nil_r | done].
  - assert (Hit : it ∈ issues) by (apply Hl; by left).
    assert (Hl' : l ⊆ issues) by (intros y Hy; apply Hl; by right).
    destruct (IH (passStep issues set st it) Hl') as (ext & -> & Hext).
    unfold passStep, appendGroup.
    destruct (bool_decide (Key it ∈ set)) eqn:Hin; cbn [negb]; [|eauto].
    apply bool_decide_eq_true_1 in Hin.
    repeat case_match; cbn [snd]; eauto.
    exists ((it :: childrenOf issues it set) ++ ext). split; [by rewrite <- app_assoc|].
    apply Forall_app. split; [|done]. apply Forall_cons. split; [done|].
    apply Forall_forall. intros c Hc.
    by apply elem_of_childrenOf in Hc as (? & _ & _ & ?).
Qed.

Lemma promote_backlog_subset (present : gset string) (l : list JiraIssue) (acc : sets) :
  (foldl (promoteStep present) acc l).2 ⊆ acc.2.
Proof.
  revert acc. induction l as [|it l IH]; intros acc; cbn [foldl]; [done|].
  etrans; [apply IH|]. unfold promoteStep. repeat case_match; cbn [snd]; set_solver.
Qed.

Lemma promote_top_origin (present : gset string) (l : list JiraIssue) (acc : sets)
    (k : string) :
  k ∈ (foldl (promoteStep present) acc l).1 →
  k ∈ acc.1 ∨ ∃ s, s ∈ l ∧ Subtask s = true ∧ ParentKey s = k.
Proof.
  revert acc. induction l as [|it l IH]; intros acc Hk; cbn [foldl] in Hk; [by left|].
  apply IH in Hk as [Hk|(s & ? & ? & ?)]; [|right; exists s; split; [by right|done]].
  unfold promoteStep in Hk.
  destruct (bool_decide (Key it ∈ acc.1)); cbn [negb] in Hk; [|by left].
  destruct (Subtask it) eqn:Hsub; cbn [andb] in Hk; [|by left].
  repeat case_match; try (by left).
  cbn [fst] in Hk. apply elem_of_union in Hk as [Hk|Hk]; [|by left].
  apply elem_of_singleton in Hk as ->. right. exists it. split; [by left|done].
Qed.

(** X8: in the To Do column, with pairwise distinct keys, the output is an
    active part followed by a backlog part: every ticket of the first part
    is not in backlog status or is named as parent by a subtask of the
    list, and every ticket of the second part is in backlog status. *)
Theorem todo_active_part_then_backlog_part (issues : list JiraIssue) :
  NoDup (Key <$> issues) →
  ∃ top back,
    reorderAndGroupIssues "To Do" issues = top ++ back ∧
    Forall (λ t, isBacklog t = false ∨
                 ∃ s, s ∈ issues ∧ Subtask s = true ∧ ParentKey s = Key t) top ∧
    Forall (λ t, isBacklog t = true) back.
Proof.
  intros Hnd. unfold reorderAndGroupIssues.
  destruct issues as [|it0 rest] eqn:Hiss; [by exists [], []|].
  rewrite <- Hiss in *. clear Hiss it0 rest.
  assert (Htop : ∀ t, t ∈ issues → Key t ∈ (partitionSets "To Do" issues).1 →
            isBacklog t = false ∨ ∃ s, s ∈ issues ∧ Subtask s = true ∧ ParentKey s = Key t).
  { intros t Ht Hk. unfold partitionSets in Hk. cbn [String.eqb Ascii.eqb Bool.eqb fst] in Hk.
    apply promote_top_origin in Hk as [Hk|Hk]; [|by right].
    apply split_top in Hk as [Hk|(a & Ha & Hka & Hact)]; [set_solver|].
    left. by rewrite <- (Key_inj_NoDup issues a t Hnd Ha Ht Hka). }
  assert (Hback : ∀ t, t ∈ issues → Key t ∈ (partitionSets "To Do" issues).2 →
            isBacklog t = true).
  { intros t Ht Hk. unfold partitionSets in Hk. cbn [String.eqb Ascii.eqb Bool.eqb snd] in Hk.
    apply promote_backlog_subset in Hk.
    apply split_backlog in Hk as [Hk|(b & Hb & Hkb & Hbl)]; [set_solver|].
    by rewrite <- (Key_inj_NoDup issues b t Hnd Hb Ht Hkb). }
  destruct (partitionSets "To Do" issues) as [topSet backlogSet].
  cbn [String.eqb Ascii.eqb Bool.eqb fst snd] in *.
  destruct (pass_appends issues topSet issues (∅, [])) as (top & Htopeq & Htopall); [done|].
  destruct (pass_appends issues backlogSet issues (runPass issues topSet (∅, [])))
    as (back & Hbackeq & Hbackall); [done|].
  exists top, back. unfold runPass at 1. rewrite Hbackeq. unfold runPass. rewrite Htopeq.
  split; [done|]. split.
  - eapply Forall_impl; [exact Htopall|]. intros t [Ht Hk]. by apply Htop.
  - eapply Forall_impl; [exact Hbackall|]. intros t [Ht Hk]. by apply Hback.
Qed.

Lemma todo_active_part_then_backlog_part_witness :
  NoDup (Key <$> [ticketB; ticketA; ticketC]) ∧
  ∃ top back,
    reorderAndGroupIssues "To Do" [ticketB; ticketA; ticketC] = top ++ back ∧
    Forall (λ t, isBacklog t = true) back.
Proof.
  assert (Hnd : NoDup (Key <$> [ticketB; ticketA; ticketC])).
  { apply (bool_decide_unpack (NoDup (Key <$> [ticketB; ticketA; ticketC]))).
    vm_compute. exact I. }
  split; [exact Hnd|].
  destruct (todo_active_part_then_backlog_part [ticketB; ticketA; ticketC] Hnd)
    as (top & back & Heq & _ & Hback).
  exists top, back. split; [exact Heq | exact Hback].
Defined.

Lemma filter_ext_on {A} (P Q : A → Prop) `{!∀ x, Decision (P x)} `{!∀ x, Decision (Q x)}
    (l : list A) :
  Forall (λ x, P x ↔ Q x) l → filter P l = filter Q l.
Proof.
  induction 1 as [|x l Hx Hl IH]; [done|]. rewrite !filter_cons, IH.
  destruct (decide (P x)), (decide (Q x)); naive_solver.
Qed.

Lemma filter_all_on {A} (P : A → Prop) `{!∀ x, Decision (P x)} (l : list A) :
  Forall P l → filter P l = l.
Proof.
  induction 1 as [|x l Hx Hl IH]; [done|]. by rewrite filter_cons_True, IH.
Qed.

(** A pass over a list without subtasks emits the tickets whose key is in
    its set, in the order of the list. *)
Lemma pass_without_subtasks (issues : list JiraIssue) (set : gset string)
    (l : list JiraIssue) (st : passState) :
  Forall (λ t, Subtask t = false) issues → l ⊆ issues →
  NoDup (Key <$> l) →
  (∀ it, it ∈ l → Key it ∈ set → Key it ∉ st.1) →
  (foldl (passStep issues set) st l).2 = st.2 ++ filter (λ it, Key it ∈ set) l.
Proof.
  intros Hnosub. revert st. induction l as [|it l IH]; intros st Hl Hnd Hfresh; cbn [foldl].
  - by rewrite filter_nil, app_nil_r.
  - assert (Hit : it ∈ issues) by (apply Hl; by left).
    assert (Hl' : l ⊆ issues) by (intros y Hy; apply Hl; by right).
    rewrite fmap_cons in Hnd. apply NoDup_cons in Hnd as [Hnotin Hnd].
    assert (Hchildren : childrenOf issues it set = []).
    { apply elem_of_nil_inv. intros c Hc.
    apply elem_of_childrenOf in Hc as (Hc & Hsub & _).
      rewrite Forall_forall in Hnosub. rewrite (Hnosub c Hc) in Hsub. done. }
    rewrite filter_cons. destruct (decide (Key it ∈ set)) as [Hin|Hout].
    + rewrite passStep_head; [|done|apply Hfresh; [by left|done]|].
      2:{ left. rewrite Forall_forall in Hnosub. by apply Hnosub. }
      rewrite Hchildren, IH; try done.
      * cbn [snd]. by rewrite <- app_assoc.
      * intros it' Hit' Hk'. cbn [fst fmap list_fmap list_to_set].
        intros Hseen. apply elem_of_union in Hseen as [Hseen|Hseen]; [|set_solver].
        apply elem_of_union in Hseen as [Hseen|Hseen].
        -- apply elem_of_singleton in Hseen. apply Hnotin.
           rewrite <- Hseen. apply list_elem_of_fmap. eauto.
        -- apply (Hfresh it'); [by right|done|done].
    + rewrite passStep_notin by done. apply IH; try done.
      intros it' Hit' Hk'. apply Hfresh; [by right|done].
Qed.

(** X9: on a list without subtasks and with pairwise distinct keys the
    grouping step keeps the input order: it returns the list as it is in
    every column but To Do, and in To Do the tickets that are not in
    backlog status followed by those that are, each group in input order. *)
Theorem grouping_without_subtasks (columnTitle : string) (issues : list JiraIssue) :
  Forall (λ t, Subtask t = false) issues → NoDup (Key <$> issues) →
  reorderAndGroupIssues columnTitle issues =
    if String.eqb columnTitle "To Do"
    then filter (λ t, isBacklog t = false) issues ++ filter (λ t, isBacklog t = true) issues
    else issues.
Proof.
  intros Hnosub Hnd. unfold reorderAndGroupIssues.
  destruct issues as [|it0 rest] eqn:Hiss; [by destruct (String.eqb _ _)|].
  rewrite <- Hiss in *. clear Hiss it0 rest.
  pose proof (partitionSets_disjoint columnTitle issues Hnd) as Hdisj.
  assert (Hsets : String.eqb columnTitle "To Do" = true →
    ∀ t, t ∈ issues →
      (Key t ∈ (partitionSets columnTitle issues).1 ↔ isBacklog t = false) ∧
      (Key t ∈ (partitionSets columnTitle issues).2 ↔ isBacklog t = true)).
  { intros Htodo t Ht. pose proof (partitionSets_cover columnTitle issues t Ht) as Hcov.
    unfold partitionSets in *. rewrite Htodo in *.
    assert (Hno : ∀ k, k ∈ (foldl (promoteStep (presentKeys issues))
                                  (foldl splitStep (∅, ∅) issues) issues).1 →
                       k ∈ (foldl splitStep (∅, ∅) issues).1).
    { intros k Hk. apply promote_top_origin in Hk as [Hk|(s & Hs & Hsub & _)]; [done|].
      rewrite Forall_forall in Hnosub. rewrite (Hnosub s Hs) in Hsub. done. }
    assert (H1 : Key t ∈ (foldl (promoteStep (presentKeys issues))
                            (foldl splitStep (∅, ∅) issues) issues).1 → isBacklog t = false).
    { intros Hk%Hno. apply split_top in Hk as [Hk|(a & Ha & Hka & Hact)]; [set_solver|].
      by rewrite <- (Key_inj_NoDup issues a t Hnd Ha Ht Hka). }
    assert (H2 : Key t ∈ (foldl (promoteStep (presentKeys issues))
                            (foldl splitStep (∅, ∅) issues) issues).2 → isBacklog t = true).
    { intros Hk%promote_backlog_subset.
      apply split_backlog in Hk as [Hk|(b & Hb & Hkb & Hbl)]; [set_solver|].
      by rewrite <- (Key_inj_NoDup issues b t Hnd Hb Ht Hkb). }
    apply elem_of_union in Hcov. split; split; auto.
    - intros Hb. destruct Hcov as [?|Hk]; [done|]. apply H2 in Hk. congruence.
    - intros Hb. destruct Hcov as [Hk|?]; [|done]. apply H1 in Hk. congruence. }
  assert (Hother : String.eqb columnTitle "To Do" = false →
    (partitionSets columnTitle issues).1 = presentKeys issues).
  { intros Hne. unfold partitionSets. by rewrite Hne. }
  destruct (partitionSets columnTitle issues) as [topSet backlogSet].
  cbn [fst snd] in *.
  assert (Hfirst : (runPass issues topSet (∅, [])).2 = filter (λ it, Key it ∈ topSet) issues).
  { unfold runPass. rewrite pass_without_subtasks; done || (intros it _ _; set_solver). }
  destruct (String.eqb columnTitle "To Do") eqn:Htodo.
  - unfold runPass at 1. rewrite pass_without_subtasks; try done.
    + rewrite Hfirst. f_equal; apply filter_ext_on.
      * apply Forall_forall. intros t Ht. apply (Hsets eq_refl t Ht).
      * apply Forall_forall. intros t Ht. apply (Hsets eq_refl t Ht).
    + intros it Hit Hk Hseen. apply pass_seen_within in Hseen. set_solver.
  - rewrite Hfirst, (Hother eq_refl).
    apply filter_all_on. apply Forall_forall. intros t Ht.
    by apply elem_of_presentKeys.
Qed.

Lemma grouping_without_subtasks_witness :
  Forall (λ t, Subtask t = false) [ticketB; ticketA] ∧
  NoDup (Key <$> [ticketB; ticketA]) ∧
  reorderAndGroupIssues "To Do" [ticketB; ticketA] = [ticketA] ++ [ticketB].
Proof.
  assert (Hsub : Forall (λ t, Subtask t = false) [ticketB; ticketA]).
  { repeat apply Forall_cons_2; try apply Forall_nil_2; reflexivity. }
  assert (Hnd : NoDup (Key <$> [ticketB; ticketA])).
  { apply (bool_decide_unpack (NoDup (Key <$> [ticketB; ticketA]))). vm_compute. exact I. }
  split; [exact Hsub|]. split; [exact Hnd|].
  rewrite (grouping_without_subtasks "To Do" [ticketB; ticketA] Hsub Hnd). reflexivity.
Defined.

(** *** Filtering *)

Lemma swapIfGreater_sorted (i j : nat) (l : list scoredIssue) :
  sortedByScore l → (i < j)%nat → swapIfGreater i j l = l.
Proof.
  intros Hs Hij. unfold swapIfGreater.
  destruct (l !! i) as [si|] eqn:Hi; [|done].
  destruct (l !! j) as [sj|] eqn:Hj; [|done].
  pose proof (Hs i j si sj Hij Hi Hj).
  destruct (Z.ltb_spec (score si) (score sj)); [lia|done].
Qed.

Lemma innerLoop_sorted (n i j : nat) (l : list scoredIssue) :
  sortedByScore l → (i < j)%nat → innerLoop n i j l = l.
Proof.
  intros Hs. revert j. induction n as [|n IH]; intros j Hij; cbn [innerLoop]; [done|].
  rewrite swapIfGreater_sorted by done. apply IH. lia.
Qed.

Lemma outerLoop_sorted (n i : nat) (l : list scoredIssue) :
  sortedByScore l → outerLoop n i l = l.
Proof.
  intros Hs. revert i. induction n as [|n IH]; intros i; cbn [outerLoop]; [done|].
  rewrite innerLoop_sorted by (done || lia). apply IH.
Qed.

(** X10: the sort of the filter leaves a list that is already in
    descending score order exactly as it is, ties included. *)
Theorem sortByScore_keeps_sorted (scored : list scoredIssue) :
  sortedByScore scored → sortByScore scored = scored.
Proof. intros Hs. unfold sortByScore. by apply outerLoop_sorted. Qed.

Lemma sortByScore_keeps_sorted_witness :
  sortedByScore [Scored bug3 100; Scored bug1 73; Scored bug2 73] ∧
  sortByScore [Scored bug3 100; Scored bug1 73; Scored bug2 73]
    = [Scored bug3 100; Scored bug1 73; Scored bug2 73].
Proof.
  assert (Hs : sortedByScore [Scored bug3 100; Scored bug1 73; Scored bug2 73]).
  { intros a b sa sb Hab Ha Hb.
    destruct a as [|[|[|a]]], b as [|[|[|b]]]; try lia;
      cbn in Ha, Hb; try discriminate;
      injection Ha as <-; injection Hb as <-; cbn; lia. }
  split; [exact Hs|]. exact (sortByScore_keeps_sorted _ Hs).
Defined.

Lemma bestScore_blank (it : JiraIssue) : bestScore "" it = 100.
Proof.
  unfold bestScore, FuzzyScore, FuzzyMatch. cbn [String.eqb negb]. reflexivity.
Qed.

Lemma constant_scores_sorted (all : list JiraIssue) (v : Z) :
  sortedByScore ((λ it, Scored it v) <$> all).
Proof.
  intros a b sa sb _ Ha Hb. rewrite list_lookup_fmap in Ha, Hb.
  destruct (all !! a); [|done]. destruct (all !! b); [|done].
  cbn in Ha, Hb. injection Ha as <-. injection Hb as <-. cbn. lia.
Qed.

(** X11: a filter text made only of punctuation normalizes to the empty
    pattern, which matches everything: the board then shows what it shows
    without a filter, every ticket, grouped, in the order of the raw list. *)
Theorem filter_of_punctuation_keeps_all (title : string) (all : list JiraIssue)
    (filter_text : string) :
  NormalizeSearchText filter_text = "" →
  filterAndGroupColumn title all filter_text = reorderAndGroupIssues title all.
Proof.
  intros Hblank. unfold filterAndGroupColumn.
  destruct (String.eqb filter_text ""); [done|].
  rewrite Hblank, scoreAll_survivors.
  rewrite (filter_all_on _ all).
  2:{ apply Forall_forall. intros it _. rewrite bestScore_blank. lia. }
  rewrite (list_fmap_ext _ (λ it, Scored it 100) all) by (intros; by rewrite bestScore_blank).
  unfold sortByScore. rewrite outerLoop_sorted by apply constant_scores_sorted.
  rewrite <- list_fmap_compose. by rewrite list_fmap_id.
Qed.

Lemma filter_of_punctuation_keeps_all_witness :
  NormalizeSearchText "?!" = "" ∧
  filterAndGroupColumn "Done" [bug1; bug2; bug3] "?!"
    = reorderAndGroupIssues "Done" [bug1; bug2; bug3].
Proof.
  assert (Hb : NormalizeSearchText "?!" = "") by reflexivity.
  split; [exact Hb|].
  exact (filter_of_punctuation_keeps_all "Done" [bug1; bug2; bug3] "?!" Hb).
Defined.

(** X12: with a non-empty filter text the board never shows a ticket that
    is not in the raw list or whose best fuzzy score is not positive. *)
Theorem filter_shows_only_matches (title : string) (all : list JiraIssue)
    (filter_text : string) (t : JiraIssue) :
  filter_text ≠ "" →
  t ∈ filterAndGroupColumn title all filter_text →
  t ∈ all ∧ 0 < bestScore (NormalizeSearchText filter_text) t.
Proof.
  intros Hne Ht. unfold filterAndGroupColumn in Ht.
  apply String.eqb_neq in Hne. rewrite Hne in Ht.
  set (nf := NormalizeSearchText filter_text) in *.
  assert (Hin : t ∈ issue <$> sortByScore (scoreAll nf all)).
  { unfold reorderAndGroupIssues in Ht.
    destruct (issue <$> sortByScore (scoreAll nf all)) as [|it0 rest] eqn:Hiss; [done|].
    rewrite <- Hiss in *. clear Hiss it0 rest.
    destruct (partitionSets title _) as [topSet backlogSet].
    assert (Hfirst : ∀ x, x ∈ (runPass (issue <$> sortByScore (scoreAll nf all))
                                 topSet (∅, [])).2 →
                          x ∈ issue <$> sortByScore (scoreAll nf all)).
    { intros x Hx. apply pass_out_origin in Hx as [Hx|[Hx _]]; [|done|done].
      by apply elem_of_nil in Hx. }
    destruct (String.eqb title "To Do"); [|by apply Hfirst].
    apply pass_out_origin in Ht as [Ht|[Ht _]]; [by apply Hfirst|done|done]. }
  apply list_elem_of_fmap in Hin as (s & -> & Hs).
  rewrite sortByScore_perm, scoreAll_survivors in Hs.
  apply list_elem_of_fmap in Hs as (it & -> & Hit).
  apply list_elem_of_filter in Hit as [Hpos Hit]. by split.
Qed.

Lemma filter_shows_only_matches_witness :
  "bg" ≠ "" ∧ bug3 ∈ filterAndGroupColumn "Done" [bug1; bug2; bug3] "bg" ∧
  0 < bestScore (NormalizeSearchText "bg") bug3.
Proof.
  assert (Hne : "bg" ≠ "") by discriminate.
  assert (Hin : bug3 ∈ filterAndGroupColumn "Done" [bug1; bug2; bug3] "bg").
  { vm_compute filterAndGroupColumn. apply list_elem_of_here. }
  split; [exact Hne|]. split; [exact Hin|].
  exact (proj2 (filter_shows_only_matches "Done" [bug1; bug2; bug3] "bg" bug3 Hne Hin)).
Defined.

(** *** Windowing, the ticket under the cursor, and the scope of a session *)

Import Scopes Rendering BoardFacts.

Section BoardMore.
Context `{TextInput}.

Lemma ensureCursorVisible_windowed (m : boardModel) (c : kanbanColumnView) :
  windowed (itemsWindowCount m) (ensureCursorVisible m c).
Proof.
  pose proof (itemsWindowCount_pos m) as Hvh. revert Hvh.
  unfold ensureCursorVisible, windowed.
  generalize (itemsWindowCount m). intros vh Hvh.
  destruct c as [t sc iss all cache cur off].
  cbn [cursor offset Board.issues setCursor setOffset].
  split_ifs; bool_to_prop; unfold lenIssues in *; lia.
Qed.

Lemma windowed_fixed (m : boardModel) (c : kanbanColumnView) :
  windowed (itemsWindowCount m) c → ensureCursorVisible m c = c.
Proof.
  unfold ensureCursorVisible, windowed.
  generalize (itemsWindowCount m). intros vh.
  destruct c as [t sc iss all cache cur off].
  cbn [cursor offset Board.issues setCursor setOffset].
  intros [H0 H1].
  split_ifs; bool_to_prop; unfold setCursor, setOffset, lenIssues in *; cbn in *;
    f_equal; lia.
Qed.

(** X13: the number of ticket rows a column draws is the terminal height
    less 10 lines, less 12 while the filter box is open, and never less
    than one row. *)
Theorem itemsWindowCount_closed_form (m : boardModel) :
  itemsWindowCount m = Z.max 1 (height m - (if filtering m then 12 else 10)).
Proof.
  unfold itemsWindowCount, viewportItemsHeight.
  destruct (filtering m); case_match; bool_to_prop; lia.
Qed.

(** X14: [ensureCursorVisible] is idempotent: a second call on the column
    it returns changes nothing. *)
Theorem ensureCursorVisible_idempotent (m : boardModel) (c : kanbanColumnView) :
  ensureCursorVisible m (ensureCursorVisible m c) = ensureCursorVisible m c.
Proof. apply windowed_fixed, ensureCursorVisible_windowed. Qed.



Lemma allScopes_elem (s : Z) : s ∈ allScopes ↔ 0 ≤ s < 4.
Proof.
  unfold allScopes, scopeMineOrReported, scopeMine, scopeReported, scopeUnassigned.
  rewrite !elem_of_cons, elem_of_nil. lia.
Qed.







(** X17: when a primary load is merged and the scope of the board is one
    of the four, the board stops loading, drops a previous error, and
    orders the background load of exactly the three other scopes, each
    once, for the columns it now holds. *)
Theorem loaded_prefetches_other_scopes (m : boardModel) (cols : list kanbanColumnView) :
  curScope m ∈ allScopes →
  ∃ m' scopes,
    Update m (dataLoadedMsg cols) = Ok m' (CmdPrefetch (columns m') scopes) ∧
    loading m' = false ∧ err m' = None ∧ curScope m' = curScope m ∧
    length scopes = 3%nat ∧ NoDup scopes ∧
    ∀ s, s ∈ scopes ↔ s ∈ allScopes ∧ s ≠ curScope m.
Proof.
  intros Hs. do 2 eexists. split; [reflexivity|].
  cbn [loading err curScope setColumns setErr setLoading].
  split; [done|]. split; [done|]. split; [done|].
  split; [|split].
  - revert Hs. unfold allScopes. rewrite !elem_of_cons, elem_of_nil.
    intros [->|[->|[->|[->|[]]]]]; vm_compute; reflexivity.
  - apply NoDup_filter. by apply (bool_decide_unpack _).
  - intros s. rewrite list_elem_of_filter. tauto.
Qed.

End BoardMore.



Lemma loaded_prefetches_other_scopes_witness :
  curScope partlyCached ∈ allScopes ∧
  ∃ m' scopes,
    Update partlyCached (dataLoadedMsg (columns partlyCached))
      = Ok m' (CmdPrefetch (columns m') scopes) ∧
    loading m' = false ∧ err m' = None ∧ curScope m' = curScope partlyCached ∧
    length scopes = 3%nat ∧ NoDup scopes ∧
    ∀ s, s ∈ scopes ↔ s ∈ allScopes ∧ s ≠ curScope partlyCached.
Proof.
  assert (Hs : curScope partlyCached ∈ allScopes).
  { vm_compute. set_solver. }
  split; [exact Hs|].
  exact (loaded_prefetches_other_scopes partlyCached (columns partlyCached) Hs).
Defined.

(** *** Merging twice, typing in the filter box *)

Section MergeAndFilter.
Context `{TextInput}.

Lemma mergeLazy_idempotent (m : boardModel) (scope : Z) (iss : list JiraIssue)
    (c : kanbanColumnView) :
  mergeLazy m scope iss (mergeLazy m scope iss c) = mergeLazy m scope iss c.
Proof.
  unfold mergeLazy. destruct (scope =? curScope m)%Z eqn:Hs.
  - destruct c as [t sc shown all cache cur off].
    unfold setIssues, setAllIssues, setAllByScope.
    cbn [title statusCategory Board.issues allIssues allByScope cursor offset].
    set (X := Column t sc (filterAndGroupColumn t iss (filterText m)) iss
                (<[scope:=iss]> cache) cur off).
    pose proof (ensureCursorVisible_frame m X) as (Ht & Hsc & Hi & Ha & Hc).
    pose proof (ensureCursorVisible_windowed m X) as Hw.
    destruct (ensureCursorVisible m X) as [t' sc' shown' all' cache' cur' off'].
    cbn in Ht, Hsc, Hi, Ha, Hc. subst t' sc' shown' all' cache'.
    unfold setIssues, setAllIssues, setAllByScope.
    cbn [title statusCategory Board.issues allIssues allByScope cursor offset].
    rewrite insert_insert_eq. by apply windowed_fixed.
  - destruct c as [t sc shown all cache cur off]. cbn.
    by rewrite insert_insert_eq.
Qed.

(** X18: merging the result of a background load is idempotent: when the
    same result is merged a second time, the board stays as the first
    merge left it, and neither merge returns a command. *)
Theorem lazy_merge_idempotent (m : boardModel) (scope : Z)
    (byIndex : gmap Z (list JiraIssue)) :
  ∃ m', Update m (lazyBatchLoadedMsg scope byIndex) = Ok m' CmdNil ∧
        Update m' (lazyBatchLoadedMsg scope byIndex) = Ok m' CmdNil.
Proof.
  eexists. split; [reflexivity|]. cbn [Update]. f_equal.
  destruct m as [cols sel ld e cs w h fil fi ft sh ls].
  unfold setColumns; cbn [columns selectedCol loading err curScope width height
    filtering filterInput filterText showingHelp launchSetup]. f_equal.
  apply list_eq. intros i. rewrite !list_lookup_imap.
  destruct (cols !! i) as [c|]; [|done]. cbn.
  destruct (byIndex !! Z.of_nat i) as [iss|]; [|done].
  f_equal. apply (mergeLazy_idempotent (Model cols sel ld e cs w h fil fi ft sh ls)).
Qed.

(** X19: in the filter box, a key other than Esc, Ctrl+C and Enter goes
    to the text input and fetches nothing: the filter text becomes the
    value of the input, the scope, the raw list and the cache of every
    column stay as they were, and every column displays its raw list run
    through [filterAndGroupColumn] with the new text, with the cursor
    inside the list and inside the window. *)
Theorem filter_typing (m : boardModel) (k : KeyMsg) :
  showingHelp m = false → filtering m = true →
  k ≠ KeyEsc → k ≠ KeyCtrlC → k ≠ KeyEnter →
  ∃ m', Update m (KeyPress k) = Ok m' (CmdTextInput k) ∧
    filterText m' = textinputValue (textinputUpdate (filterInput m) k) ∧
    filtering m' = true ∧ curScope m' = curScope m ∧
    selectedCol m' = selectedCol m ∧
    length (columns m') = length (columns m) ∧
    ∀ (i : nat) (c : kanbanColumnView), columns m !! i = Some c →
      ∃ c', columns m' !! i = Some c' ∧
        title c' = title c ∧ allIssues c' = allIssues c ∧
        allByScope c' = allByScope c ∧
        Board.issues c' = filterAndGroupColumn (title c) (allIssues c) (filterText m') ∧
        windowed (itemsWindowCount m') c'.
Proof.
  intros Hhelp Hfil Hesc Hctrl Henter. cbn [Update]. rewrite Hhelp, Hfil.
  set (m1 := setFilterText (setFilterInput m (textinputUpdate (filterInput m) k))
               (textinputValue (textinputUpdate (filterInput m) k))).
  exists (setColumns m1
            ((λ c, ensureCursorVisible m1
                     (setIssues c (filterAndGroupColumn (title c) (allIssues c)
                                                        (filterText m1))))
               <$> columns m1)).
  split; [by destruct k|].
  cbn [filterText filtering curScope selectedCol columns setColumns m1
       setFilterText setFilterInput].
  split; [done|]. split; [done|]. split; [done|]. split; [done|].
  split; [apply length_fmap|].
  intros i c Hc. rewrite list_lookup_fmap, Hc. cbn [fmap option_fmap option_map].
  eexists; split; [reflexivity|].
  pose proof (ensureCursorVisible_frame m1
    (setIssues c (filterAndGroupColumn (title c) (allIssues c) (filterText m1))))
    as (Ht & _ & Hi & Ha & Hca).
  split; [exact Ht|]. split; [exact Ha|]. split; [exact Hca|].
  split; [exact Hi|].
  apply (ensureCursorVisible_windowed m1).
Qed.

End MergeAndFilter.

Lemma filter_typing_witness :
  ∃ m', Update (setFiltering partlyCached true) (KeyPress (KeyRunes "par"))
          = Ok m' (CmdTextInput (KeyRunes "par")) ∧
        filterText m' = "par".
Proof.
  destruct (filter_typing (H := plainTextInput) (setFiltering partlyCached true)
              (KeyRunes "par") eq_refl eq_refl
              ltac:(discriminate) ltac:(discriminate) ltac:(discriminate))
    as (m' & Hu & Hft & _).
  exists m'. split; [exact Hu|]. exact Hft.
Defined.

(** *** The loaders *)

Lemma storeResult_frame (scope : Z) (filter : string) (iss : list JiraIssue)
    (c : kanbanColumnView) :
  title (storeResult scope filter iss c) = title c ∧
  statusCategory (storeResult scope filter iss c) = statusCategory c ∧
  allIssues (storeResult scope filter iss c) = iss ∧
  allByScope (storeResult scope filter iss c) = <[scope := iss]> (allByScope c) ∧
  Board.issues (storeResult scope filter iss c)
    = filterAndGroupColumn (title c) iss filter.
Proof. unfold storeResult. destruct c. cbn. repeat case_match; done. Qed.




Lemma collectLoop_stored (scope : Z) (filter : string) (rs : list columnResult) :
  ∀ (n : nat) (tail : list arrival) (columns : list kanbanColumnView),
  Forall (λ r, Loader.err r = None) rs →
  NoDup (Loader.index <$> rs) →
  (length rs ≤ n)%nat →
  (∀ r, head tail ≠ Some (Received r)) →
  ∃ cols', collectLoop n ((Received <$> rs) ++ tail) columns scope filter
             = dataLoadedMsg cols' ∧
    (∀ i, (∀ r, r ∈ rs → Loader.index r ≠ i) → cols' !! i = columns !! i) ∧
    ∀ r c, r ∈ rs → columns !! Loader.index r = Some c →
      cols' !! Loader.index r = Some (storeResult scope filter (Loader.issues r) c).
Proof.
  induction rs as [|r0 rs IH]; intros n tail columns Herr Hnd Hlen Htail.
  - exists columns. split.
    + destruct n; [done|]. cbn. destruct tail as [|[r|] tail]; try done.
      by destruct (Htail r).
    + split; [done|]. intros r c Hr. by apply elem_of_nil in Hr.
  - apply Forall_cons in Herr as [He0 Herr].
    rewrite fmap_cons in Hnd. apply NoDup_cons in Hnd as [Hnotin Hnd].
    destruct n as [|n]; [cbn in Hlen; lia|]. cbn in Hlen.
    cbn [fmap list_fmap app collectLoop]. rewrite He0.
    destruct (IH n tail (alter (storeResult scope filter (Loader.issues r0))
                           (Loader.index r0) columns) Herr Hnd ltac:(lia) Htail)
      as (cols' & Heq & Hother & Hst).
    exists cols'. split; [exact Heq|]. split.
    + intros i Hi. rewrite Hother.
      * apply list_lookup_alter_ne. apply Hi. by left.
      * intros r Hr. apply Hi. by right.
    + intros r c [->|Hr]%elem_of_cons Hc.
      * rewrite Hother.
        { by rewrite list_lookup_alter_eq, Hc. }
        intros r Hr Heq'. apply Hnotin. rewrite <- Heq'.
        by apply list_elem_of_fmap_2.
      * apply Hst; [exact Hr|]. rewrite list_lookup_alter_ne; [exact Hc|].
        intros Heq'. apply Hnotin. rewrite Heq'. by apply list_elem_of_fmap_2.
Qed.

(** X21: when the results that arrive before the deadline are all
    successful and are for different columns, the primary load returns the
    columns with every result stored: the column of a result holds the
    fetched list as its raw list and as its cache entry for the scope, and
    displays that list run through [filterAndGroupColumn] with the filter
    text; the other columns are returned as they were. *)
Theorem primary_load_stores_results (columns : list kanbanColumnView) (scope : Z)
    (filter : string) (rs : list columnResult) (tail : list arrival) :
  Forall (λ r, Loader.err r = None) rs →
  NoDup (Loader.index <$> rs) →
  (length rs ≤ length columns)%nat →
  (∀ r, head tail ≠ Some (Received r)) →
  ∃ cols', loadColumnsConcurrently columns scope filter ((Received <$> rs) ++ tail)
             = dataLoadedMsg cols' ∧
    (∀ i, (∀ r, r ∈ rs → Loader.index r ≠ i) → cols' !! i = columns !! i) ∧
    ∀ r c, r ∈ rs → columns !! Loader.index r = Some c →
      ∃ c', cols' !! Loader.index r = Some c' ∧
        title c' = title c ∧
        allIssues c' = Loader.issues r ∧
        allByScope c' = <[scope := Loader.issues r]> (allByScope c) ∧
        Board.issues c' = filterAndGroupColumn (title c) (Loader.issues r) filter.
Proof.
  intros Herr Hnd Hlen Htail.
  destruct (collectLoop_stored scope filter rs (length columns) tail columns
              Herr Hnd Hlen Htail) as (cols' & Heq & Hother & Hst).
  exists cols'. split; [exact Heq|]. split; [exact Hother|].
  intros r c Hr Hc. eexists. split; [by apply Hst|].
  pose proof (storeResult_frame scope filter (Loader.issues r) c)
    as (Ht & _ & Ha & Hca & Hi).
  done.
Qed.

Lemma primary_load_stores_results_witness :
  ∃ cols', loadColumnsConcurrently (columns partlyCached) 1 ""
             ((Received <$> [ColumnResult 2 [bug1; bug2] None; ColumnResult 0 [ticketB] None])
                ++ [CtxDone])
             = dataLoadedMsg cols' ∧
           cols' !! 1%nat = columns partlyCached !! 1%nat.
Proof.
  destruct (primary_load_stores_results (columns partlyCached) 1 ""
              [ColumnResult 2 [bug1; bug2] None; ColumnResult 0 [ticketB] None] [CtxDone])
    as (cols' & Heq & Hother & _).
  - repeat apply Forall_cons_2; try apply Forall_nil_2; reflexivity.
  - by apply (bool_decide_unpack _).
  - cbn. lia.
  - intros r. cbn. discriminate.
  - exists cols'. split; [exact Heq|]. apply Hother.
    intros r [->|[->|[]%elem_of_nil]%elem_of_cons]%elem_of_cons; cbn; lia.
Defined.

Lemma fetchScopeStep_other (fetch : fetcher) (sc : Z)
    (acc : list fetchCall * gmap Z (list JiraIssue)) (p : nat * kanbanColumnView)
    (k : nat) :
  p.1 ≠ k → (fetchScopeStep fetch sc acc p).2 !! Z.of_nat k = acc.2 !! Z.of_nat k.
Proof.
  intros Hne. unfold fetchScopeStep.
  destruct (fetch (statusCategory p.2) sc 100); cbn [snd]; [done|].
  rewrite lookup_insert_ne; [done|lia].
Qed.

Lemma runFetchScope_fold (fetch : fetcher) (sc : Z)
    (ps : list (nat * kanbanColumnView)) (k : nat) :
  NoDup ps.*1 →
  ∀ acc : list fetchCall * gmap Z (list JiraIssue),
    (∀ c, (k, c) ∈ ps →
       (foldl (fetchScopeStep fetch sc) acc ps).2 !! Z.of_nat k
       = match fetch (statusCategory c) sc 100 with
         | inr iss => Some iss
         | inl _ => acc.2 !! Z.of_nat k
         end) ∧
    (k ∉ ps.*1 →
       (foldl (fetchScopeStep fetch sc) acc ps).2 !! Z.of_nat k = acc.2 !! Z.of_nat k).
Proof.
  induction ps as [|[j c0] ps IH]; intros Hnd acc.
  { split; [|done]. intros c Hc. by apply elem_of_nil in Hc. }
  rewrite fmap_cons in Hnd. apply NoDup_cons in Hnd as [Hj Hnd]. cbn [fst] in Hj.
  cbn [foldl]. destruct (IH Hnd (fetchScopeStep fetch sc acc (j, c0))) as [IH1 IH2].
  split.
  - intros c [Heq|Hin]%elem_of_cons.
    + injection Heq as <- <-. rewrite IH2 by exact Hj.
      unfold fetchScopeStep. cbn [fst snd].
      destruct (fetch (statusCategory c) sc 100); cbn [snd]; [done|].
      by rewrite lookup_insert_eq.
    + assert (Hne : j ≠ k).
      { intros ->. apply Hj. by apply (list_elem_of_fmap_2 fst) in Hin. }
      rewrite (IH1 c Hin).
      by rewrite (fetchScopeStep_other fetch sc acc (j, c0) k Hne).
  - rewrite fmap_cons. cbn [fst]. intros Hnot.
    apply not_elem_of_cons in Hnot as [Hne Hnot].
    rewrite IH2 by exact Hnot.
    apply (fetchScopeStep_other fetch sc acc (j, c0) k). cbn. congruence.
Qed.

Lemma imap_pair_keys {A} (l : list A) : (imap pair l).*1 = seq 0 (length l).
Proof.
  apply list_eq. intros i. rewrite list_lookup_fmap, list_lookup_imap.
  destruct (l !! i) as [x|] eqn:Hx; cbn.
  - symmetry. apply lookup_seq. split; [done|]. by eapply lookup_lt_Some.
  - symmetry. apply lookup_seq_ge. by apply lookup_ge_None.
Qed.

Lemma runFetchScope_lookup (fetch : fetcher) (colsSnapshot : list kanbanColumnView)
    (sc : Z) (i : nat) :
  (foldl (fetchScopeStep fetch sc) ([], ∅) (imap pair colsSnapshot)).2 !! Z.of_nat i
  = c ← colsSnapshot !! i;
    match fetch (statusCategory c) sc 100 with
    | inr iss => Some iss
    | inl _ => None
    end.
Proof.
  assert (Hnd : NoDup (imap pair colsSnapshot).*1).
  { rewrite imap_pair_keys. apply NoDup_seq. }
  destruct (runFetchScope_fold fetch sc (imap pair colsSnapshot) i Hnd ([], ∅))
    as [H1 H2].
  cbn [snd] in H1, H2.
  destruct (colsSnapshot !! i) as [c|] eqn:Hc; cbn.
  - rewrite (H1 c).
    + by destruct (fetch (statusCategory c) sc 100).
    + apply list_elem_of_lookup. exists i. by rewrite list_lookup_imap, Hc.
  - rewrite H2; [done|]. rewrite imap_pair_keys, elem_of_seq.
    apply lookup_ge_None in Hc. lia.
Qed.

(** X22: the fetch started by the key "s" never reports an error: it
    always returns a [lazyBatchLoadedMsg] for the scope, with an entry for
    exactly the columns whose fetch succeeded, holding the fetched list; a
    column whose fetch fails is left out without a trace. *)
Theorem scope_fetch_skips_failures (fetch : fetcher) (colsSnapshot : list kanbanColumnView)
    (sc : Z) :
  ∃ byIdx, (runFetchScope fetch colsSnapshot sc).2 = lazyBatchLoadedMsg sc byIdx ∧
    ∀ i : nat,
      byIdx !! Z.of_nat i
      = match colsSnapshot !! i with
        | Some c => match fetch (statusCategory c) sc 100 with
                    | inr iss => Some iss
                    | inl _ => None
                    end
        | None => None
        end.
Proof.
  eexists. split; [reflexivity|]. intros i.
  rewrite runFetchScope_lookup. by destruct (colsSnapshot !! i).
Qed.

(** *** What [View] draws in a column *)

Section ViewFacts.
Context `{TextInput}.

Lemma issueAt_Some (l : list JiraIssue) (idx : Z) (it : JiraIssue) :
  issueAt l idx = Some it ↔ 0 ≤ idx ∧ l !! Z.to_nat idx = Some it.
Proof.
  unfold issueAt. destruct (Z.ltb_spec idx 0); split.
  - done.
  - intros [? _]. lia.
  - done.
  - by intros [_ ?].
Qed.

(** X23: for one of the three columns, once [ensureCursorVisible] has
    left it in its window and it displays at least one ticket, [View] does
    not index out of range.  It draws a line above and a line below the tickets, at most
    [itemsWindowCount] ticket rows, each of them a ticket of the displayed
    list at a position inside the window, and among them the row under the
    cursor; that row is highlighted when the column is the selected one,
    and no other row is. *)
Theorem view_draws_window (m : boardModel) (i : Z) (c : kanbanColumnView) :
  0 ≤ i < 3 → windowed (itemsWindowCount m) c → Board.issues c ≠ [] →
  ∃ items it,
    columnItems m i c = Some items ∧
    Z.of_nat (length (filter (λ l, isIssueLine l = true) items)) ≤ itemsWindowCount m ∧
    length items = (length (filter (λ l, isIssueLine l = true) items) + 2)%nat ∧
    Board.issues c !! Z.to_nat (cursor c) = Some it ∧
    LineIssue (cursor c) it (i =? selectedCol m)%Z ∈ items ∧
    ∀ idx t sel, LineIssue idx t sel ∈ items →
      Board.issues c !! Z.to_nat idx = Some t ∧
      offset c ≤ idx < offset c + itemsWindowCount m ∧
      sel = ((i =? selectedCol m)%Z && (idx =? cursor c)%Z).
Proof.
  intros Hi [_ Hw] Hne.
  pose proof (itemsWindowCount_pos m) as Hvh.
  assert (Hlen : 0 < lenIssues (Board.issues c)).
  { unfold lenIssues. destruct (Board.issues c); [done|]. cbn [length]. lia. }
  destruct (Hw Hlen) as (Hcur & Hoff & Hwin & Hmax). clear Hw.
  unfold columnItems.
  destruct (Z.eqb_spec (lenIssues (Board.issues c)) 0) as [E|_]; [lia|].
  set (vh := itemsWindowCount m) in *.
  set (len := lenIssues (Board.issues c)) in *.
  set (stop := Z.min len (offset c + vh)).
  set (f := λ idx, it ← issueAt (Board.issues c) idx;
                   if (i <? 0)%Z || (3 <=? i)%Z then None
                   else Some (LineIssue idx it
                                ((i =? selectedCol m)%Z && (idx =? cursor c)%Z))).
  assert (Hf : ∀ idx, offset c ≤ idx < stop →
             ∃ it, Board.issues c !! Z.to_nat idx = Some it ∧
                   f idx = Some (LineIssue idx it
                                   ((i =? selectedCol m)%Z && (idx =? cursor c)%Z))).
  { intros idx Hidx.
    destruct (lookup_lt_is_Some_2 (Board.issues c) (Z.to_nat idx)) as [it Hit].
    { unfold len, lenIssues, stop in *. lia. }
    exists it. split; [exact Hit|]. unfold f.
    rewrite (proj2 (issueAt_Some _ _ it)) by (split; [lia|exact Hit]).
    cbn [mbind option_bind].
    destruct (Z.ltb_spec i 0); [lia|]. destruct (Z.leb_spec 3 i); [lia|]. done. }
  destruct (mapM_is_Some_2 f (seqZ (offset c) (stop - offset c))) as [rows Hrows].
  { apply Forall_forall. intros idx [Hi1 Hi2]%elem_of_seqZ.
    destruct (Hf idx) as (it & _ & Hfi); [lia|]. cbn. by rewrite Hfi. }
  fold f. rewrite Hrows. cbn [mbind option_bind].
  apply mapM_Some_1 in Hrows.
  assert (Hrow : ∀ l, l ∈ rows →
            ∃ idx it, offset c ≤ idx < stop ∧
              Board.issues c !! Z.to_nat idx = Some it ∧
              l = LineIssue idx it ((i =? selectedCol m)%Z && (idx =? cursor c)%Z)).
  { intros l [k Hk]%list_elem_of_lookup.
    destruct (Forall2_lookup_r _ _ _ _ _ Hrows Hk) as (idx & Hidx & Hfi).
    apply lookup_seqZ in Hidx as [-> Hlt].
    destruct (Hf (offset c + Z.of_nat k)) as (it & Hit & Hfi'); [lia|].
    exists (offset c + Z.of_nat k), it. split; [lia|]. split; [exact Hit|]. congruence. }
  assert (Hfil : filter (λ l, isIssueLine l = true) rows = rows).
  { clear -Hrow. induction rows as [|l rows IH]; [done|].
    rewrite filter_cons.
    destruct (Hrow l) as (idx & it & _ & _ & ->); [by left|]. cbn.
    f_equal. apply IH. intros l' Hl'. apply Hrow. by right. }
  assert (Hlenrows : length rows = Z.to_nat (stop - offset c)).
  { rewrite <- (Forall2_length _ _ _ Hrows). apply length_seqZ. }
  destruct (Hf (cursor c)) as (it & Hit & Hfc); [unfold stop; lia|].
  assert (Hinrow : LineIssue (cursor c) it (i =? selectedCol m)%Z ∈ rows).
  { assert (Hk : seqZ (offset c) (stop - offset c) !! Z.to_nat (cursor c - offset c)
                 = Some (cursor c)).
    { apply lookup_seqZ. unfold stop. lia. }
    destruct (Forall2_lookup_l _ _ _ _ _ Hrows Hk) as (l & Hl & Hfl).
    rewrite Hfc in Hfl. injection Hfl as <-.
    rewrite Z.eqb_refl, andb_true_r in Hl. by eapply list_elem_of_lookup_2. }
  set (top := if (0 <? offset c)%Z then LineAbove (offset c) else LineSpacer).
  set (bottom := if (stop <? len)%Z then LineBelow (len - stop) else LineSpacer).
  assert (Hfilter : filter (λ l, isIssueLine l = true) (top :: rows ++ [bottom]) = rows).
  { rewrite filter_cons, filter_app, Hfil.
    assert (Ht : isIssueLine top = false) by (unfold top; by case_match).
    assert (Hb : isIssueLine bottom = false) by (unfold bottom; by case_match).
    rewrite decide_False by (rewrite Ht; done).
    rewrite filter_cons, decide_False by (rewrite Hb; done).
    by rewrite filter_nil, app_nil_r. }
  exists (top :: rows ++ [bottom]), it.
  split; [done|]. rewrite Hfilter.
  split; [rewrite Hlenrows; unfold stop; lia|].
  split; [cbn [length]; rewrite length_app; cbn [length]; lia|].
  split; [exact Hit|].
  split; [right; apply elem_of_app; by left|].
  intros idx t sel Hin.
  assert (Hin' : LineIssue idx t sel ∈ rows).
  { apply elem_of_cons in Hin as [Heq|Hin].
    { exfalso. revert Heq. unfold top. by case_match. }
    apply elem_of_app in Hin as [Hin|Hin]; [exact Hin|].
    apply list_elem_of_singleton in Hin. exfalso. revert Hin. unfold bottom. by case_match. }
  destruct (Hrow _ Hin') as (idx' & it' & Hidx' & Hit' & Heq).
  injection Heq as -> -> ->.
  split; [exact Hit'|]. split; [unfold stop in Hidx'; lia|done].
Qed.

(** X24: a column whose fetch fails when the key "s" changes the scope
    goes on saying that it is loading: the result of the fetch has no entry
    for the column, merging it leaves the column without tickets and without
    a cache entry for the scope, and [View] draws the loading line. *)
Theorem failed_scope_fetch_stays_loading (m : boardModel) (fetch : fetcher)
    (i : nat) (c : kanbanColumnView) (e : goError) :
  showingHelp m = false → filtering m = false →
  columns m !! i = Some c →
  allByScope c !! Z.rem (curScope m + 1) 4 = None →
  fetch (statusCategory c) (Z.rem (curScope m + 1) 4) 100 = inl e →
  ∃ m1 colsSnapshot m2 c2,
    Update m (KeyPress (KeyRunes "s"))
      = Ok m1 (CmdFetchScope colsSnapshot (Z.rem (curScope m + 1) 4)) ∧
    Update m1 (runFetchScope fetch colsSnapshot (Z.rem (curScope m + 1) 4)).2
      = Ok m2 CmdNil ∧
    columns m2 !! i = Some c2 ∧
    columnItems m2 (Z.of_nat i) c2 = Some [LineLoading].
Proof.
  intros Hhelp Hfil Hc Hnone Hfetch. cbn [Update]. rewrite Hhelp, Hfil.
  unfold updateKey; cbn [keyString String.eqb Ascii.eqb Bool.eqb orb].
  unfold updateCycleScope.
  set (sc := Z.rem (curScope m + 1) 4) in *.
  set (m0 := setCurScope m sc).
  assert (Hin : i ∈ missingIndices m0).
  { apply (missingIndices_elem m0). exists c. by split. }
  destruct (missingIndices m0) as [|j miss] eqn:Hm; [by apply elem_of_nil in Hin|].
  rewrite <- Hm in *. clear Hm j miss.
  do 4 eexists. split; [reflexivity|].
  unfold runFetchScope. cbn [snd Update].
  split; [reflexivity|].
  cbn [columns setColumns curScope m0 setCurScope].
  rewrite list_lookup_imap.
  erewrite markLoading_lookup by (rewrite list_lookup_fmap, Hc; reflexivity).
  rewrite bool_decide_eq_true_2 by exact Hin.
  cbn [fmap option_fmap option_map].
  rewrite runFetchScope_lookup, list_lookup_fmap, Hc.
  cbn [fmap option_fmap option_map mbind option_bind].
  rewrite switchColumn_statusCategory, Hfetch.
  split; [reflexivity|].
  unfold columnItems. cbn [Board.issues setIssues lenIssues length Z.of_nat Z.eqb].
  cbn [allByScope setIssues curScope setColumns setCurScope m0].
  unfold switchColumn. cbn [curScope m0 setCurScope]. rewrite Hnone.
  change (lenIssues [] =? 0)%Z with true. cbn match.
  destruct (ensureCursorVisible_frame m0 c) as (_ & _ & _ & _ & ->).
  by rewrite Hnone.
Qed.

End ViewFacts.

Lemma view_draws_window_witness :
  ∃ items it,
    columnItems partlyCached 0 (Column "To Do" "To Do" [ticketA; ticketB] [] ∅ 1 0)
      = Some items ∧
    LineIssue 1 it true ∈ items.
Proof.
  destruct (view_draws_window (H := plainTextInput) partlyCached 0
              (Column "To Do" "To Do" [ticketA; ticketB] [] ∅ 1 0))
    as (items & it & Hitems & _ & _ & _ & Hin & _).
  - lia.
  - unfold windowed, lenIssues. set (w := itemsWindowCount _). vm_compute in w.
    subst w. cbn. lia.
  - discriminate.
  - exists items, it. split; [exact Hitems|exact Hin].
Defined.

Lemma failed_scope_fetch_stays_loading_witness :
  ∃ m1 colsSnapshot m2 c2,
    Update partlyCached (KeyPress (KeyRunes "s")) = Ok m1 (CmdFetchScope colsSnapshot 1) ∧
    Update m1 (runFetchScope (λ _ _ _, inl DeadlineExceeded) colsSnapshot 1).2
      = Ok m2 CmdNil ∧
    columns m2 !! 1%nat = Some c2 ∧
    columnItems m2 1 c2 = Some [LineLoading].
Proof.
  exact (failed_scope_fetch_stays_loading (H := plainTextInput) partlyCached
           (λ _ _ _, inl DeadlineExceeded) 1
           (Column "In Progress" "In Progress" [] [] (<[0 := []]> ∅) 0 0)
           DeadlineExceeded eq_refl eq_refl eq_refl eq_refl eq_refl).
Defined.

(** *** Preferences and scope texts *)

Section Preferences.
Context `{TextInput}.

(** X25: the preferences written when the board exits bring the next
    board back to where the session ended: when the scope is one of the
    four and one of the three columns is selected, [initialBoardModel]
    started from the saved [LastScope] and [LastSelectedCol] has the same
    scope and the same selected column, whatever the default scope of the
    configuration says. *)
Theorem preferences_restore_session (m : boardModel) (DefaultScope : string) :
  curScope m ∈ allScopes → 0 ≤ selectedCol m < 3 →
  curScope (initialBoardModel (LastScope (savedPreferences m))
              (LastSelectedCol (savedPreferences m)) DefaultScope) = curScope m ∧
  selectedCol (initialBoardModel (LastScope (savedPreferences m))
                 (LastSelectedCol (savedPreferences m)) DefaultScope) = selectedCol m.
Proof.
  intros Hs Hsel. cbn [savedPreferences LastScope LastSelectedCol initialBoardModel
                       curScope selectedCol].
  split.
  - revert Hs. unfold allScopes. rewrite !elem_of_cons, elem_of_nil.
    intros [->|[->|[->|[->|[]]]]]; reflexivity.
  - destruct (Z.leb_spec 0 (selectedCol m)); [|lia].
    destruct (Z.ltb_spec (selectedCol m) 3); [|lia]. reflexivity.
Qed.

End Preferences.

Lemma preferences_restore_session_witness :
  curScope (initialBoardModel (H := plainTextInput)
              (LastScope (savedPreferences fullyCached))
              (LastSelectedCol (savedPreferences fullyCached)) "unassigned")
    = curScope fullyCached.
Proof.
  assert (Hs : curScope fullyCached ∈ allScopes) by (vm_compute; set_solver).
  assert (Hc : 0 ≤ selectedCol fullyCached < 3) by (cbn; lia).
  exact (proj1 (preferences_restore_session (H := plainTextInput) fullyCached
                  "unassigned" Hs Hc)).
Defined.

(** X26: the header text of each of the four scopes is read back by
    [scopeFromString] as that scope, and so is its configuration string by
    [getDefaultScope]: a [default_scope] written the way the preferences
    write [LastScope] selects the same scope.  For any other value
    [scopeToString] is empty. *)
Theorem scope_texts_read_back (s : Z) :
  (s ∈ allScopes →
     scopeFromString (scopeToString s) = s ∧
     getDefaultScope (scopeToConfigString s) = s) ∧
  (s ∉ allScopes → scopeToString s = "").
Proof.
  split; intros Hs.
  - revert Hs. unfold allScopes. rewrite !elem_of_cons, elem_of_nil.
    intros [->|[->|[->|[->|[]]]]]; split; reflexivity.
  - rewrite allScopes_elem in Hs. unfold scopeToString,
      scopeMineOrReported, scopeMine, scopeReported, scopeUnassigned.
    repeat case_match; bool_to_prop; try lia; done.
Qed.

(** *** Clipping and branch names *)

Lemma length_substring_0 (n : nat) (s : string) :
  String.length (String.substring 0 n s) = Nat.min n (String.length s).
Proof.
  revert s. induction n as [|n IH]; intros [|c s]; cbn; try done.
  by rewrite IH.
Qed.

Lemma length_append (a b : string) :
  String.length (a +:+ b) = (String.length a + String.length b)%nat.
Proof.
  induction a as [|c a IH]; [done|].
  change (S (String.length (a +:+ b)) = S (String.length a + String.length b)).
  by rewrite IH.
Qed.

(** X27: [clip] with a positive width returns at most that many bytes: the
    text itself when it fits, otherwise exactly [w] bytes; with a width of
    zero or less it returns the text uncut. *)
Theorem clip_length (s : string) (w : Z) :
  len (clip s w) = (if (w <=? 0)%Z then len s else Z.min (len s) w) ∧
  (len s ≤ w → clip s w = s).
Proof.
  unfold clip, len. split.
  - destruct (Z.leb_spec w 0) as [Hw|Hw]; cbn [orb]; [done|].
    destruct (Z.leb_spec (Z.of_nat (String.length s)) w) as [Hl|Hl]; [lia|].
    destruct (Z.leb_spec w 3) as [H3|H3].
    + rewrite length_substring_0. lia.
    + rewrite length_append, length_substring_0. cbn [String.length]. lia.
  - intros Hl. destruct (w <=? 0)%Z; cbn [orb]; [done|].
    destruct (Z.leb_spec (Z.of_nat (String.length s)) w); [done|lia].
Qed.

Import Branch.

Lemma replaceRuns_bytes (inRun : bool) (s : string) :
  Forall (λ c, isSlugByte c = true ∨ c = "-"%char) (chars (replaceRuns inRun s)).
Proof.
  revert inRun. induction s as [|c s IH]; intros inRun; cbn [replaceRuns].
  - constructor.
  - destruct (isSlugByte c) eqn:Hc.
    + rewrite chars_cons. constructor; [by left|apply IH].
    + destruct inRun; [apply IH|]. rewrite chars_cons. constructor; [by right|apply IH].
Qed.

Lemma TrimLeft_spec (P : ascii → Prop) (s : string) :
  (Forall P (chars s) → Forall P (chars (TrimLeft s))) ∧
  head (chars (TrimLeft s)) ≠ Some "-"%char.
Proof.
  induction s as [|c s [IH1 IH2]]; cbn [TrimLeft]; [done|].
  destruct (Ascii.eqb_spec c "-") as [->|Hc].
  - split; [|exact IH2]. rewrite chars_cons. intros [_ Hs]%Forall_cons. by apply IH1.
  - split; [done|]. rewrite chars_cons. cbn. congruence.
Qed.

Lemma TrimRight_spec (P : ascii → Prop) (s : string) :
  (Forall P (chars s) → Forall P (chars (TrimRight s))) ∧
  last (chars (TrimRight s)) ≠ Some "-"%char ∧
  (head (chars s) ≠ Some "-"%char → head (chars (TrimRight s)) ≠ Some "-"%char) ∧
  (String.length (TrimRight s) ≤ String.length s)%nat.
Proof.
  induction s as [|c s (IH1 & IH2 & _ & IH4)]; cbn [TrimRight]; [done|].
  destruct (TrimRight s) as [|c' r'] eqn:Hr.
  - destruct (Ascii.eqb_spec c "-") as [->|Hc].
    + split; [constructor|]. split; [done|]. split; [done|]. cbn; lia.
    + rewrite !chars_cons.
      split; [intros [Hc' _]%Forall_cons; by repeat constructor|].
      split; [cbn; congruence|]. split; [cbn; congruence|]. cbn; lia.
  - rewrite !chars_cons in *. split.
    { intros [Hc Hs]%Forall_cons. constructor; [done|]. by apply IH1. }
    split; [exact IH2|]. split; [done|]. cbn in *. lia.
Qed.

Lemma substring_spec (P : ascii → Prop) (n : nat) (s : string) :
  (Forall P (chars s) → Forall P (chars (String.substring 0 n s))) ∧
  (head (chars s) ≠ Some "-"%char →
   head (chars (String.substring 0 n s)) ≠ Some "-"%char).
Proof.
  revert s. induction n as [|n IH]; intros [|c s]; cbn [String.substring]; try done.
  rewrite !chars_cons. split; [|done].
  intros [Hc Hs]%Forall_cons. constructor; [done|]. by apply IH.
Qed.

(** X28: the branch name made for a ticket is its key, an underscore,
    and a summary part that consists of the bytes [a-z], [0-9] and the
    hyphen, is at most 50 bytes long, and neither starts nor ends with a
    hyphen. *)
Theorem branch_name_shape (issue : JiraIssue) :
  ∃ slug, createBranchName issue = Key issue +:+ "_" +:+ slug ∧
    Forall (λ c, isSlugByte c = true ∨ c = "-"%char) (chars slug) ∧
    len slug ≤ 50 ∧
    head (chars slug) ≠ Some "-"%char ∧
    last (chars slug) ≠ Some "-"%char.
Proof.
  exists (branchSlug (Summary issue)). split; [reflexivity|].
  generalize (Summary issue). intros summary.
  unfold branchSlug, Trim.
  set (P := λ c : ascii, isSlugByte c = true ∨ c = "-"%char).
  set (x := replaceRuns false (ToLower summary)).
  pose proof (replaceRuns_bytes false (ToLower summary)) as Hx. fold x in Hx. fold P in Hx.
  destruct (TrimLeft_spec P x) as [Hl1 Hl2].
  destruct (TrimRight_spec P (TrimLeft x)) as (Ht1 & Ht2 & Ht3 & _).
  set (y := TrimRight (TrimLeft x)) in *.
  destruct (Z.ltb_spec 50 (len y)) as [Hlong|Hshort].
  - destruct (substring_spec P 50 y) as [Hs1 Hs2].
    destruct (TrimRight_spec P (String.substring 0 50 y)) as (Hc1 & Hc2 & Hc3 & Hc4).
    split; [auto|]. split.
    + unfold len. rewrite length_substring_0 in Hc4. lia.
    + split; [auto|done].
  - split; [auto|]. split; [lia|]. split; [auto|done].
Qed.

(** *** Long targets *)




(** *** Grouping: no ticket twice *)

Lemma childrenOf_NoDup (issues : list JiraIssue) (parent : JiraIssue)
    (allow : gset string) :
  NoDup (Key <$> issues) → NoDup (Key <$> childrenOf issues parent allow).
Proof.
  intros Hnd. eapply sublist_NoDup; [exact Hnd|].
  apply fmap_sublist. unfold childrenOf. apply sublist_filter.
Qed.

Lemma passStep_distinct (issues : list JiraIssue) (set : gset string)
    (st : passState) (it : JiraIssue) :
  NoDup (Key <$> issues) → (∀ x, x ∈ issues → Key x ≠ "") → it ∈ issues →
  NoDup (Key <$> st.2) ∧
  (∀ x, x ∈ st.2 → x ∈ issues ∧ Key x ∈ st.1) ∧
  (∀ k, k ∈ st.1 → ∃ x, x ∈ st.2 ∧ Key x = k) ∧
  (∀ x, x ∈ st.2 → Key x ∈ set → Subtask x = true → ParentKey x ≠ "" →
        ParentKey x ∈ set → ParentKey x ∈ st.1) →
  NoDup (Key <$> (passStep issues set st it).2) ∧
  (∀ x, x ∈ (passStep issues set st it).2 →
        x ∈ issues ∧ Key x ∈ (passStep issues set st it).1) ∧
  (∀ k, k ∈ (passStep issues set st it).1 →
        ∃ x, x ∈ (passStep issues set st it).2 ∧ Key x = k) ∧
  (∀ x, x ∈ (passStep issues set st it).2 → Key x ∈ set → Subtask x = true →
        ParentKey x ≠ "" → ParentKey x ∈ set →
        ParentKey x ∈ (passStep issues set st it).1).
Proof.
  intros Hnd Hkeys Hit (Hout & Hin & Hseen & Hpar).
  destruct (decide (Key it ∈ set)) as [Hset|Hset];
    [|by rewrite passStep_notin].
  destruct (decide (Key it ∈ st.1)) as [Hdone|Hnew];
    [by rewrite passStep_seen|].
  destruct (decide (Subtask it = true ∧ ParentKey it ≠ "" ∧ ParentKey it ∈ set))
    as [(Hs & Hne & Hp)|Hhead]; [by rewrite passStep_child|].
  rewrite passStep_head; [|done|done|].
  2:{ destruct (Subtask it) eqn:Hs; [|by left]. right.
      destruct (decide (ParentKey it = "")) as [?|Hne]; [by left|right].
      intros Hp. by apply Hhead. }
  cbn [fst snd].
  set (ch := childrenOf issues it set).
  assert (Hch : ∀ c, c ∈ ch → c ∈ issues ∧ Subtask c = true ∧
                             ParentKey c = Key it ∧ Key c ∈ set).
  { intros c Hc. by apply elem_of_childrenOf in Hc. }
  assert (Hfresh : ∀ c, c ∈ ch → Key c ∉ st.1).
  { intros c Hc Hk. destruct (Hch c Hc) as (Hci & Hcs & Hcp & Hcset).
    destruct (Hseen _ Hk) as (x & Hx & Hxk).
    assert (x = c) as ->.
    { apply (Key_inj_NoDup issues); [done|by apply Hin|done|done]. }
    apply Hnew. rewrite <- Hcp. apply Hpar; [done|done|done| |].
    - rewrite Hcp. by apply Hkeys.
    - by rewrite Hcp. }
  assert (Hself : ∀ c, c ∈ ch → Key c ≠ Key it).
  { intros c Hc Hk. destruct (Hch c Hc) as (Hci & Hcs & Hcp & Hcset).
    assert (c = it) as -> by (by apply (Key_inj_NoDup issues)).
    apply Hhead. split; [done|]. split; [rewrite Hcp; by apply Hkeys|].
    by rewrite Hcp. }
  split; [|split; [|split]].
  - rewrite fmap_app. apply NoDup_app. split; [done|]. split.
    + intros k (x & -> & Hx)%list_elem_of_fmap.
      destruct (Hin x Hx) as [_ Hxs].
      rewrite fmap_cons. intros [Heq|(c & Hkc & Hc)%list_elem_of_fmap]%elem_of_cons.
      * apply Hnew. by rewrite <- Heq.
      * apply (Hfresh c Hc). by rewrite <- Hkc.
    + rewrite fmap_cons. apply NoDup_cons. split.
      * intros (c & Hkc & Hc)%list_elem_of_fmap. by apply (Hself c Hc).
      * by apply childrenOf_NoDup.
  - intros x [Hx|[->|Hx]%elem_of_cons]%elem_of_app.
    + destruct (Hin x Hx). split; [done|set_solver].
    + split; [done|set_solver].
    + destruct (Hch x Hx) as (? & _). split; [done|].
      apply elem_of_union. right. apply elem_of_list_to_set. by apply list_elem_of_fmap_2.
  - intros k [[Hk|Hk]%elem_of_union|Hk]%elem_of_union.
    + apply elem_of_singleton in Hk as ->. exists it. split; [|done].
      apply elem_of_app. right. by left.
    + destruct (Hseen k Hk) as (x & Hx & Hxk). exists x. split; [|done].
      apply elem_of_app. by left.
    + apply elem_of_list_to_set, list_elem_of_fmap in Hk as (c & -> & Hc).
      exists c. split; [|done]. apply elem_of_app. right. by right.
  - intros x [Hx|[->|Hx]%elem_of_cons]%elem_of_app Hxset Hxs Hxne Hxp.
    + pose proof (Hpar x Hx Hxset Hxs Hxne Hxp). set_solver.
    + exfalso. by apply Hhead.
    + destruct (Hch x Hx) as (_ & _ & Hcp & _). rewrite Hcp. set_solver.
Qed.

Lemma pass_distinct (issues : list JiraIssue) (set : gset string)
    (l : list JiraIssue) (st : passState) :
  NoDup (Key <$> issues) → (∀ x, x ∈ issues → Key x ≠ "") → l ⊆ issues →
  NoDup (Key <$> st.2) ∧
  (∀ x, x ∈ st.2 → x ∈ issues ∧ Key x ∈ st.1) ∧
  (∀ k, k ∈ st.1 → ∃ x, x ∈ st.2 ∧ Key x = k) ∧
  (∀ x, x ∈ st.2 → Key x ∈ set → Subtask x = true → ParentKey x ≠ "" →
        ParentKey x ∈ set → ParentKey x ∈ st.1) →
  NoDup (Key <$> (foldl (passStep issues set) st l).2) ∧
  (∀ x, x ∈ (foldl (passStep issues set) st l).2 →
        x ∈ issues ∧ Key x ∈ (foldl (passStep issues set) st l).1) ∧
  (∀ k, k ∈ (foldl (passStep issues set) st l).1 →
        ∃ x, x ∈ (foldl (passStep issues set) st l).2 ∧ Key x = k).
Proof.
  intros Hnd Hkeys. revert st.
  induction l as [|it l IH]; intros st Hl Hinv; cbn [foldl].
  - destruct Hinv as (? & ? & ? & _). done.
  - apply IH.
    + intros y Hy. apply Hl. by right.
    + apply passStep_distinct; [done|done| |done]. apply Hl. by left.
Qed.

(** X30: when the keys of the list are pairwise distinct and none of them
    is empty, the grouping step returns no ticket twice. *)
Theorem grouping_no_duplicates (columnTitle : string) (issues : list JiraIssue) :
  NoDup (Key <$> issues) → (∀ x, x ∈ issues → Key x ≠ "") →
  NoDup (Key <$> reorderAndGroupIssues columnTitle issues) ∧
  NoDup (reorderAndGroupIssues columnTitle issues).
Proof.
  intros Hnd Hkeys.
  assert (Hgoal : NoDup (Key <$> reorderAndGroupIssues columnTitle issues)).
  { unfold reorderAndGroupIssues.
    destruct issues as [|it0 rest] eqn:Hiss; [constructor|].
    rewrite <- Hiss in *. clear Hiss it0 rest.
    pose proof (partitionSets_disjoint columnTitle issues Hnd) as Hdisj.
    destruct (partitionSets columnTitle issues) as [topSet backlogSet].
    cbn [fst snd] in Hdisj.
    destruct (pass_distinct issues topSet issues (∅, []) Hnd Hkeys) as (H1 & H2 & H3).
    { done. }
    { cbn. split; [constructor|]. split; [set_solver|]. split; set_solver. }
    fold (runPass issues topSet (∅, [])) in H1, H2, H3.
    destruct (String.eqb columnTitle "To Do"); [|exact H1].
    destruct (pass_distinct issues backlogSet issues (runPass issues topSet (∅, []))
                Hnd Hkeys) as (G1 & _).
    { done. }
    { split; [exact H1|]. split; [exact H2|]. split; [exact H3|].
      intros x Hx Hxb. exfalso. unfold runPass in Hx.
      apply pass_out_origin in Hx as [Hx|[_ Hx]]; [by apply elem_of_nil in Hx| |done].
      set_solver. }
    exact G1. }
  split; [exact Hgoal|]. by apply NoDup_fmap_1 in Hgoal.
Qed.

Lemma grouping_no_duplicates_witness :
  NoDup (Key <$> [parentP; otherX; subtaskS]) ∧
  NoDup (reorderAndGroupIssues "To Do" [parentP; otherX; subtaskS]).
Proof.
  assert (Hnd : NoDup (Key <$> [parentP; otherX; subtaskS])).
  { apply (bool_decide_unpack (NoDup (Key <$> [parentP; otherX; subtaskS]))).
    vm_compute. exact I. }
  split; [exact Hnd|].
  apply (grouping_no_duplicates "To Do" [parentP; otherX; subtaskS] Hnd).
  intros x Hx. rewrite !elem_of_cons, elem_of_nil in Hx.
  destruct Hx as [-> | [-> | [-> | []]]]; discriminate.
Defined.
